(** * Sampler utilities of torchgeo: a shallow embedding

    This development embeds [torchgeo/samplers/utils.py] and proves the
    properties its specification states about the four functions of that
    module: [_to_tuple], [get_random_bounding_box],
    [get_random_bounding_box_check_valid_overlap] and [tile_to_chips].

    Numbers.  Coordinates, sizes, strides and the resolution are Python
    floats.  The module is embedded twice.  The first embedding reads the
    arithmetic exactly, over the rationals ([Q]): [+], [-], [*] are the
    field operations, [a // b] is [floor (a / b)], [a / b] is the quotient.
    It carries the statements that do not depend on rounding: how many
    iterations the retry loop makes, which candidate it returns, which
    calls raise.  The second embedding, [Binary64], computes every operator
    as Python does on floats, with IEEE 754 rounding, CPython's floor
    division and the errors of [math.ceil]; the statements whose truth
    depends on rounding are settled on it.  Both raise [ZeroDivisionError]
    on a zero divisor.  Loop counters are Python integers, hence unbounded
    ([Z]).

    Effects.  [torch.rand(1).item()] reads the next value of a random source;
    the source is a sequence [uniform] indexed by [nat] (of rationals in
    the exact embedding, of floats in [Binary64]) and the state threaded
    through the samplers is the number of values consumed so far.
    Exceptions are an explicit outcome. *)

From Stdlib Require Import QArith Qround ZArith Lia Lqa Bool String List.
From Stdlib Require Import SpecFloat Qpower.
Import ListNotations.

Open Scope Q_scope.

(** ** Outcomes of a Python call *)

Inductive exn : Type :=
| ZeroDivisionError
| AssertionError.

(** [OutOfFuel] is an artefact of the embedding of [while True]: it is the
    outcome of a loop that was given too few iterations to finish, and it is
    never the outcome of straight-line code. *)
Inductive result (A : Type) : Type :=
| Ok (a : A)
| Raise (e : exn)
| OutOfFuel.

Arguments Ok {A} a.
Arguments Raise {A} e.
Arguments OutOfFuel {A}.

Definition bindR {A B : Type} (c : result A) (k : A -> result B) : result B :=
  match c with
  | Ok a => k a
  | Raise e => Raise e
  | OutOfFuel => OutOfFuel
  end.

Notation "x <-- c ;; k" := (bindR c (fun x => k))
  (at level 61, c at next level, right associativity).

Definition raised {A : Type} (r : result A) : bool :=
  match r with
  | Raise _ => true
  | _ => false
  end.

(** ** Python operators on numbers *)

Definition Qgt_bool (a b : Q) : bool := negb (Qle_bool a b).

(** [a // b] *)
Definition floordiv (a b : Q) : result Z :=
  if Qeq_bool b 0 then Raise ZeroDivisionError else Ok (Qfloor (a / b)).

(** [a / b] *)
Definition truediv (a b : Q) : result Q :=
  if Qeq_bool b 0 then Raise ZeroDivisionError else Ok (a / b).

(** [math.ceil] of an exact quotient.  On floats it also raises, on an
    infinity or a NaN: see [Binary64.math_ceil]. *)
Definition math_ceil (a : Q) : Z := Qceiling a.

(** [assert b] *)
Definition py_assert (b : bool) : result unit :=
  if b then Ok tt else Raise AssertionError.

(** ** Data *)

(** Modelled from the spec: the class [BoundingBox] of [torchgeo.datasets] is
    imported by the module and is not among its sources.  The specification
    describes it as an immutable value of six scalars named [minx], [maxx],
    [miny], [maxy], [mint], [maxt]; constructing one stores the six values. *)
Record BoundingBox : Type := mkBoundingBox {
  minx : Q;
  maxx : Q;
  miny : Q;
  maxy : Q;
  mint : Q;
  maxt : Q
}.

(** The argument [size : Union[tuple[float, float], float]]. *)
Inductive size_spec : Type :=
| Scalar (v : Q)
| Pair (p : Q * Q).

(** [isinstance(value, (float, int))] is the test on the constructor. *)
Definition _to_tuple (value : size_spec) : Q * Q :=
  match value with
  | Scalar v => (v, v)
  | Pair p => p
  end.

(** ** The random source and the sampler monad *)

Definition rng : Type := nat.

Definition M (A : Type) : Type := rng -> result (A * rng).

Definition ret {A : Type} (a : A) : M A := fun st => Ok (a, st).

Definition bind {A B : Type} (c : M A) (k : A -> M B) : M B :=
  fun st =>
    match c st with
    | Ok (a, st') => k a st'
    | Raise e => Raise e
    | OutOfFuel => OutOfFuel
    end.

Definition lift {A : Type} (r : result A) : M A :=
  fun st =>
    match r with
    | Ok a => Ok (a, st)
    | Raise e => Raise e
    | OutOfFuel => OutOfFuel
    end.

Notation "x <- c ;; k" := (bind c (fun x => k))
  (at level 61, c at next level, right associativity).

Section Samplers.

(** The values [torch.rand(1).item()] returns, in the order of the calls. *)
Variable uniform : nat -> Q.

Definition torch_rand : M Q := fun st => Ok (uniform st, S st).

(** The statements of the function with the arithmetic read exactly; the
    control flow, the draws and the error of [//] are the code's.  With the
    operators of Python floats the function is
    [Binary64.get_random_bounding_box]. *)
Definition get_random_bounding_box
    (bounds : BoundingBox) (size : size_spec) (res : Q) : M BoundingBox :=
  let t_size := _to_tuple size in
  width <- lift (floordiv (maxx bounds - minx bounds - snd t_size) res) ;;
  height <- lift (floordiv (maxy bounds - miny bounds - fst t_size) res) ;;
  minx' <- (if (0 <? width)%Z
            then r <- torch_rand ;;
                 ret (minx bounds + r * inject_Z width * res)
            else ret (minx bounds)) ;;
  miny' <- (if (0 <? height)%Z
            then r <- torch_rand ;;
                 ret (miny bounds + r * inject_Z height * res)
            else ret (miny bounds)) ;;
  let maxx' := minx' + snd t_size in
  let maxy' := miny' + fst t_size in
  ret (mkBoundingBox minx' maxx' miny' maxy' (mint bounds) (maxt bounds)).

(** The candidate drawn after [before] earlier ones, and the state of the
    random source after it: the candidate of iteration [before + 1]. *)
Fixpoint nth_candidate (before : nat)
    (bounds : BoundingBox) (size : size_spec) (res : Q) : M BoundingBox :=
  match before with
  | O => get_random_bounding_box bounds size res
  | S k =>
      _ <- get_random_bounding_box bounds size res ;;
      nth_candidate k bounds size res
  end.

Section Constrained.

(** [shapely] is a library the module calls: its polygons, the
    constructor [shapely.geometry.box(minx, miny, maxx, maxy)] and the
    relation passed as [spatial_operator] are parameters. *)
Variable Polygon : Type.
Variable shapely_box : Q -> Q -> Q -> Q -> Polygon.
Variable spatial_operator : Polygon -> Polygon -> bool.

(** The body of [while True], run at most [fuel] times.  The counter
    [retries] is returned next to the box so that the number of
    iterations can be stated. *)
Fixpoint sampling_loop (fuel : nat)
    (bounds : BoundingBox) (size : size_spec) (res : Q)
    (valid_footprint : Polygon) (max_retries : Z)
    (retries : Z) : M (BoundingBox * Z) :=
  match fuel with
  | O => fun _ => OutOfFuel
  | S fuel' =>
      let retries := (retries + 1)%Z in
      bounding_box <- get_random_bounding_box bounds size res ;;
      let bbox := shapely_box (minx bounding_box) (miny bounding_box)
                              (maxx bounding_box) (maxy bounding_box) in
      if spatial_operator bbox valid_footprint
         || (retries >=? max_retries)%Z
      then ret (bounding_box, retries)
      else sampling_loop fuel' bounds size res valid_footprint
                         max_retries retries
  end.

Definition get_random_bounding_box_check_valid_overlap (fuel : nat)
    (bounds : BoundingBox) (size : size_spec) (res : Q)
    (valid_footprint : Polygon) (max_retries : Z) : M BoundingBox :=
  r <- sampling_loop fuel bounds size res valid_footprint max_retries 0%Z ;;
  ret (fst r).

End Constrained.

End Samplers.

(** The default of the argument [max_retries]. *)
Definition default_max_retries : Z := 50000.

(** ** The grid tiler *)

(** The statements of the function with the arithmetic read exactly.  With
    the operators of Python floats, and the errors of [math.ceil], the
    function is [Binary64.tile_to_chips]. *)
Definition tile_to_chips (bounds : BoundingBox) (size : Q * Q)
    (stride : option (Q * Q)) : result (Z * Z) :=
  let stride := match stride with
                | None => size
                | Some s => s
                end in
  _ <-- py_assert (Qgt_bool (fst stride) 0) ;;
  _ <-- py_assert (Qgt_bool (snd stride) 0) ;;
  qr <-- truediv (maxy bounds - miny bounds - fst size) (fst stride) ;;
  let rows := (math_ceil qr + 1)%Z in
  qc <-- truediv (maxx bounds - minx bounds - snd size) (snd stride) ;;
  let cols := (math_ceil qc + 1)%Z in
  Ok (rows, cols).

(** ** Quantities the specification names *)

(** The slack of the specification, "the number of whole-resolution steps
    along each axis", in exact arithmetic:
    [floor ((bounds.maxx - bounds.minx - w) / res)] and
    [floor ((bounds.maxy - bounds.miny - h) / res)].  The value the code
    computes in floats is [Binary64.slack_x], [Binary64.slack_y]. *)
Definition slack_x (bounds : BoundingBox) (size : size_spec) (res : Q) : Z :=
  Qfloor ((maxx bounds - minx bounds - snd (_to_tuple size)) / res).

Definition slack_y (bounds : BoundingBox) (size : size_spec) (res : Q) : Z :=
  Qfloor ((maxy bounds - miny bounds - fst (_to_tuple size)) / res).

(** The formula of the specification for one axis of the grid:
    [ceil ((extent - size) / stride) + 1]. *)
Definition chips_along (extent size stride : Q) : Z :=
  (Qceiling ((extent - size) / stride) + 1)%Z.

(** The stride [tile_to_chips] works with: [size] when none is given. *)
Definition stride_or_size (size : Q * Q) (stride : option (Q * Q)) : Q * Q :=
  match stride with
  | None => size
  | Some s => s
  end.

(** The number of iterations after which the retry budget forces a return:
    the exhaustion test is made after the counter is incremented, so the
    first iteration always runs. *)
Definition budget (max_retries : Z) : Z := Z.max 1 max_retries.

(** The polygon the loop builds from a candidate:
    [shapely.geometry.box(b.minx, b.miny, b.maxx, b.maxy)]. *)
Definition candidate_polygon {Polygon : Type}
    (shapely_box : Q -> Q -> Q -> Q -> Polygon) (b : BoundingBox) : Polygon :=
  shapely_box (minx b) (miny b) (maxx b) (maxy b).

(** ** Rectangles under shapely's relations *)

Module Shapely.

(** The polygons [shapely.geometry.box(minx, miny, maxx, maxy)] builds are
    axis-aligned rectangles.  On them the two relations the sampler is
    typed for have a closed form.  shapely documents both through the
    DE-9IM matrix of the closed point sets: [within(a, b)] when no point of
    [a] lies outside [b] and the interiors share a point, [overlaps(a, b)]
    (for two areas) when the interiors share a point and each geometry has
    interior points outside the other, i.e. "some but not all points in
    common".  [Within] and [Overlaps] state this on points, [within] and
    [overlaps] are the tests on coordinates. *)
Record rectangle : Type := mkRectangle {
  x_lo : Q;
  y_lo : Q;
  x_hi : Q;
  y_hi : Q
}.

Definition box (minx miny maxx maxy : Q) : rectangle :=
  mkRectangle minx miny maxx maxy.

Definition point : Type := (Q * Q)%type.

Definition inside (r : rectangle) (p : point) : Prop :=
  (x_lo r <= fst p /\ fst p <= x_hi r) /\
  (y_lo r <= snd p /\ snd p <= y_hi r).

Definition interior (r : rectangle) (p : point) : Prop :=
  (x_lo r < fst p /\ fst p < x_hi r) /\
  (y_lo r < snd p /\ snd p < y_hi r).

Definition Within (a b : rectangle) : Prop :=
  (forall p, inside a p -> inside b p) /\
  (exists p, interior a p /\ interior b p).

Definition Overlaps (a b : rectangle) : Prop :=
  (exists p, interior a p /\ interior b p) /\
  (exists p, interior a p /\ ~ inside b p) /\
  (exists p, interior b p /\ ~ inside a p).

Definition Qlt_bool (a b : Q) : bool := negb (Qle_bool b a).

Definition has_area (r : rectangle) : bool :=
  Qlt_bool (x_lo r) (x_hi r) && Qlt_bool (y_lo r) (y_hi r).

Definition interiors_meet (a b : rectangle) : bool :=
  has_area a && has_area b &&
  Qlt_bool (x_lo a) (x_hi b) && Qlt_bool (x_lo b) (x_hi a) &&
  Qlt_bool (y_lo a) (y_hi b) && Qlt_bool (y_lo b) (y_hi a).

Definition covered_by (a b : rectangle) : bool :=
  Qle_bool (x_lo b) (x_lo a) && Qle_bool (x_hi a) (x_hi b) &&
  Qle_bool (y_lo b) (y_lo a) && Qle_bool (y_hi a) (y_hi b).

Definition within (a b : rectangle) : bool :=
  interiors_meet a b && covered_by a b.

Definition overlaps (a b : rectangle) : bool :=
  interiors_meet a b && negb (covered_by a b) && negb (covered_by b a).

End Shapely.

(** The footprint "equal to the full spatial extent of [bounds]". *)
Definition full_extent (bounds : BoundingBox) : Shapely.rectangle :=
  Shapely.box (minx bounds) (miny bounds) (maxx bounds) (maxy bounds).

(** A size that fits: positive, and at most the extent of [bounds]. *)
Definition size_fits (bounds : BoundingBox) (size : size_spec) : Prop :=
  (0 < fst (_to_tuple size) /\
   fst (_to_tuple size) <= maxy bounds - miny bounds) /\
  (0 < snd (_to_tuple size) /\
   snd (_to_tuple size) <= maxx bounds - minx bounds).

Definition in_unit_interval (uniform : nat -> Q) : Prop :=
  forall n, 0 <= uniform n /\ uniform n < 1.

(** ** Two statements of the specification, as written

    Both are refuted below; the theorems next to the refutations state what
    the code does instead. *)

(** "The loop is guaranteed to terminate within [max_retries] iterations
    regardless of predicate outcome." *)
Definition returns_within_max_retries : Prop :=
  forall (uniform : nat -> Q) (Polygon : Type)
         (shapely_box : Q -> Q -> Q -> Q -> Polygon)
         (spatial_operator : Polygon -> Polygon -> bool)
         (bounds : BoundingBox) (size : size_spec) (res : Q)
         (valid_footprint : Polygon) (max_retries : Z) (st : rng),
    0 < res ->
    exists (fuel : nat) (b : BoundingBox) (retries : Z) (st' : rng),
      sampling_loop uniform Polygon shapely_box spatial_operator fuel
                    bounds size res valid_footprint max_retries 0%Z st =
      Ok ((b, retries), st') /\
      (retries <= max_retries)%Z.

(** "Given a footprint equal to the full extent of [bounds] and predicate
    overlaps, the first attempt always satisfies the predicate
    (retries == 1) for any valid size/res combination." *)
Definition first_candidate_overlaps_extent : Prop :=
  forall (uniform : nat -> Q) (bounds : BoundingBox) (size : size_spec)
         (res : Q) (max_retries : Z) (st : rng),
    in_unit_interval uniform -> size_fits bounds size -> 0 < res ->
    exists (fuel : nat) (b : BoundingBox) (st' : rng),
      sampling_loop uniform Shapely.rectangle Shapely.box Shapely.overlaps
                    fuel bounds size res (full_extent bounds) max_retries
                    0%Z st =
      Ok ((b, 1%Z), st') /\
      Shapely.overlaps (candidate_polygon Shapely.box b) (full_extent bounds)
      = true.

(** ** Concrete inputs used in examples *)

Definition tile_10_10 : BoundingBox := mkBoundingBox 0 10 0 10 0 1.
Definition tile_12_10 : BoundingBox := mkBoundingBox 0 12 0 10 0 1.
Definition halves : nat -> Q := fun _ => 1 # 2.

(** A source that cycles through 0, 1/4, 1/2, 3/4. *)
Definition quarters : nat -> Q := fun n => Z.of_nat (n mod 4) # 4.

(** A footprint without area, away from [tile_10_10]. *)
Definition far_point : Shapely.rectangle := Shapely.box 20 20 20 20.

(** ** The package file [transforms/__init__.py]

    The file imports nine classes and then runs
    [for module in __all__: globals()[module].__module__ = "torchgeo.transforms"].
    The classes are objects shared with the modules that define them:
    [globals()] maps a name to an object and the attribute [__module__] lives
    in the object.  The two defining modules are not among the sources, so
    the namespace the imports leave and the attributes the objects start
    with are arguments.  The loop variable [module] is a global of the file
    too; its name is not in [__all__], so binding it changes no lookup the
    loop makes, and the namespace is taken as fixed during the loop. *)

Module Transforms.

Inductive exn : Type :=
| KeyError (key : string).

Definition object_id : Type := nat.

(** [globals()]: the first binding of a name is the one a lookup finds. *)
Definition namespace : Type := list (string * object_id).

(** The attribute [__module__] of every object. *)
Definition heap : Type := object_id -> string.

Fixpoint lookup (name : string) (globals : namespace) : option object_id :=
  match globals with
  | [] => None
  | (n, o) :: rest => if String.eqb name n then Some o else lookup name rest
  end.

(** [o.__module__ = value] *)
Definition set_module (h : heap) (o : object_id) (value : string) : heap :=
  fun o' => if Nat.eqb o' o then value else h o'.

(** The names of the two import statements, in their order. *)
Definition imported : list string :=
  [ "AppendGNDVI"; "AppendNBR"; "AppendNDBI"; "AppendNDSI"; "AppendNDVI";
    "AppendNDWI"; "AppendNormalizedDifferenceIndex"; "AppendSWI";
    "AugmentationSequential" ]%string.

Definition __all__ : list string :=
  [ "AppendNormalizedDifferenceIndex"; "AppendGNDVI"; "AppendNBR";
    "AppendNDBI"; "AppendNDSI"; "AppendNDVI"; "AppendNDWI"; "AppendSWI";
    "AugmentationSequential" ]%string.

Definition package : string := "torchgeo.transforms"%string.

(** The loop over [names]: the heap it leaves and the exception that ended
    it, if one did.  What was assigned before a [KeyError] stays assigned. *)
Fixpoint set_modules (names : list string) (globals : namespace) (h : heap)
    : heap * option exn :=
  match names with
  | [] => (h, None)
  | module :: rest =>
      match lookup module globals with
      | None => (h, Some (KeyError module))
      | Some o => set_modules rest globals (set_module h o package)
      end
  end.

(** The namespace binds every name the import statements bind. *)
Definition imports_done (globals : namespace) : Prop :=
  forall name : string, In name imported -> lookup name globals <> None.

End Transforms.

(** A namespace as the imports leave it, with one object for each class,
    and the attributes the defining modules give. *)
Definition after_imports : Transforms.namespace :=
  [ ("AppendGNDVI", 0%nat); ("AppendNBR", 1%nat); ("AppendNDBI", 2%nat);
    ("AppendNDSI", 3%nat); ("AppendNDVI", 4%nat); ("AppendNDWI", 5%nat);
    ("AppendNormalizedDifferenceIndex", 6%nat); ("AppendSWI", 7%nat);
    ("AugmentationSequential", 8%nat); ("Tensor", 9%nat) ]%string.

Definition defining_modules : Transforms.heap :=
  fun o => if Nat.eqb o 8 then "torchgeo.transforms.transforms"%string
           else if Nat.eqb o 9 then "torch"%string
           else "torchgeo.transforms.indices"%string.

(** * The module in binary64 arithmetic

    The arguments of the module are Python floats.  [Binary64] embeds the
    same four functions with every operator computing as Python computes
    it on floats: [+], [-], [*], [/] round to nearest, ties to even, as
    specified by [SpecFloat] with a precision of 53 bits; [//] follows the
    steps of CPython's float floor division; [math.ceil] converts to an
    integer and raises on an infinity or a NaN.  Python integers below 2^53
    behave in these operators as the floats of the same value.  Statements
    whose truth depends on rounding are settled on this embedding; the
    embedding over [Q] above is the reading in exact arithmetic and carries
    the statements that do not depend on rounding. *)

Module Binary64.

Definition prec : Z := 53.
Definition emax : Z := 1024.
Definition float : Type := spec_float.

Definition add : float -> float -> float := SFadd prec emax.
Definition sub : float -> float -> float := SFsub prec emax.
Definition mul : float -> float -> float := SFmul prec emax.
Definition div : float -> float -> float := SFdiv prec emax.
Definition ltb : float -> float -> bool := SFltb.
Definition leb : float -> float -> bool := SFleb.
Definition eqb : float -> float -> bool := SFeqb.

(** [x > y] *)
Definition gt (x y : float) : bool := ltb y x.

(** The float of an integer and the float nearest to [n / d]; decimal
    literals are written with them, [ratio 1 10] for [0.1]. *)
Definition of_Z (z : Z) : float := binary_normalize prec emax z 0 false.
Definition ratio (n d : Z) : float := div (of_Z n) (of_Z d).

Definition zero : float := S754_zero false.
Definition one : float := of_Z 1.
Definition half : float := ratio 1 2.

Definition is_finite (x : float) : bool :=
  match x with
  | S754_zero _ | S754_finite _ _ _ => true
  | _ => false
  end.

(** The number a finite float stands for. *)
Definition to_Q (x : float) : Q :=
  match x with
  | S754_finite s m e => inject_Z (cond_Zopp s (Zpos m)) * Qpower 2 e
  | _ => 0
  end.

(** C's truth value of a double: anything but a zero. *)
Definition nonzero (x : float) : bool :=
  match x with
  | S754_zero _ => false
  | _ => true
  end.

Definition sign_bit (x : float) : bool :=
  match x with
  | S754_zero s | S754_infinity s | S754_finite s _ _ => s
  | S754_nan => false
  end.

(** [copysign(0.0, x)] *)
Definition copysign_zero (x : float) : float := S754_zero (sign_bit x).

(** C's [floor]: the result is an integer below 2^53 in magnitude when the
    exponent is negative, hence exact. *)
Definition floor (x : float) : float :=
  match x with
  | S754_finite s m e =>
      if (0 <=? e)%Z then x
      else binary_normalize prec emax
             (cond_Zopp s (Zpos m) / 2 ^ (- e))%Z 0 s
  | _ => x
  end.

(** C's [fmod]: the remainder of the truncated quotient, exact, with the
    sign of [x]. *)
Definition fmod (x y : float) : float :=
  match x, y with
  | S754_nan, _ | _, S754_nan => S754_nan
  | S754_infinity _, _ => S754_nan
  | _, S754_zero _ => S754_nan
  | _, S754_infinity _ => x
  | S754_zero _, _ => x
  | S754_finite sx mx ex, S754_finite _ my ey =>
      let e := Z.min ex ey in
      binary_normalize prec emax
        (cond_Zopp sx (Z.rem (Zpos mx * 2 ^ (ex - e))
                             (Zpos my * 2 ^ (ey - e))))%Z
        e sx
  end.

(** The quotient of CPython's [_float_div_mod], for a divisor that is not
    zero. *)
Definition floordiv_value (vx wx : float) : float :=
  let mod_ := fmod vx wx in
  let div0 := div (sub vx mod_) wx in
  let div1 := if nonzero mod_
              then if xorb (ltb wx zero) (ltb mod_ zero)
                   then sub div0 one
                   else div0
              else div0 in
  if nonzero div1
  then let fl := floor div1 in
       if ltb half (sub div1 fl) then add fl one else fl
  else copysign_zero (div vx wx).

Inductive exn : Type :=
| ZeroDivisionError
| AssertionError
| OverflowError
| ValueError.

Inductive result (A : Type) : Type :=
| Ok (a : A)
| Raise (e : exn)
| OutOfFuel.

Arguments Ok {A} a.
Arguments Raise {A} e.
Arguments OutOfFuel {A}.

Definition bindR {A B : Type} (c : result A) (k : A -> result B) : result B :=
  match c with
  | Ok a => k a
  | Raise e => Raise e
  | OutOfFuel => OutOfFuel
  end.

Notation "x <~~ c ;; k" := (bindR c (fun x => k))
  (at level 61, c at next level, right associativity).

(** [a // b] *)
Definition floordiv (a b : float) : result float :=
  if eqb b zero then Raise ZeroDivisionError else Ok (floordiv_value a b).

(** [a / b] *)
Definition truediv (a b : float) : result float :=
  if eqb b zero then Raise ZeroDivisionError else Ok (div a b).

(** [math.ceil] *)
Definition math_ceil (x : float) : result Z :=
  match x with
  | S754_nan => Raise ValueError
  | S754_infinity _ => Raise OverflowError
  | S754_zero _ => Ok 0%Z
  | S754_finite s m e =>
      Ok (if (0 <=? e)%Z then cond_Zopp s (Zpos m * 2 ^ e)
          else - ((- cond_Zopp s (Zpos m)) / 2 ^ (- e)))%Z
  end.

(** [assert b] *)
Definition py_assert (b : bool) : result unit :=
  if b then Ok tt else Raise AssertionError.

(** Modelled from the spec: the class [BoundingBox] of [torchgeo.datasets],
    as for the exact embedding, with floats in its six fields. *)
Record BoundingBox : Type := mkBoundingBox {
  minx : float;
  maxx : float;
  miny : float;
  maxy : float;
  mint : float;
  maxt : float
}.

Inductive size_spec : Type :=
| Scalar (v : float)
| Pair (p : float * float).

Definition _to_tuple (value : size_spec) : float * float :=
  match value with
  | Scalar v => (v, v)
  | Pair p => p
  end.

Definition M (A : Type) : Type := rng -> result (A * rng).

Definition ret {A : Type} (a : A) : M A := fun st => Ok (a, st).

Definition bind {A B : Type} (c : M A) (k : A -> M B) : M B :=
  fun st =>
    match c st with
    | Ok (a, st') => k a st'
    | Raise e => Raise e
    | OutOfFuel => OutOfFuel
    end.

Definition lift {A : Type} (r : result A) : M A :=
  fun st =>
    match r with
    | Ok a => Ok (a, st)
    | Raise e => Raise e
    | OutOfFuel => OutOfFuel
    end.

Notation "x <~ c ;; k" := (bind c (fun x => k))
  (at level 61, c at next level, right associativity).

Section Samplers.

(** The values [torch.rand(1).item()] returns, in the order of the calls. *)
Variable uniform : nat -> float.

Definition torch_rand : M float := fun st => Ok (uniform st, S st).

Definition get_random_bounding_box
    (bounds : BoundingBox) (size : size_spec) (res : float)
    : M BoundingBox :=
  let t_size := _to_tuple size in
  width <~ lift (floordiv (sub (sub (maxx bounds) (minx bounds))
                               (snd t_size)) res) ;;
  height <~ lift (floordiv (sub (sub (maxy bounds) (miny bounds))
                                (fst t_size)) res) ;;
  minx' <~ (if gt width zero
            then r <~ torch_rand ;;
                 ret (add (minx bounds) (mul (mul r width) res))
            else ret (minx bounds)) ;;
  miny' <~ (if gt height zero
            then r <~ torch_rand ;;
                 ret (add (miny bounds) (mul (mul r height) res))
            else ret (miny bounds)) ;;
  let maxx' := add minx' (snd t_size) in
  let maxy' := add miny' (fst t_size) in
  ret (mkBoundingBox minx' maxx' miny' maxy' (mint bounds) (maxt bounds)).

Fixpoint nth_candidate (before : nat)
    (bounds : BoundingBox) (size : size_spec) (res : float)
    : M BoundingBox :=
  match before with
  | O => get_random_bounding_box bounds size res
  | S k =>
      _ <~ get_random_bounding_box bounds size res ;;
      nth_candidate k bounds size res
  end.

Section Constrained.

Variable Polygon : Type.
Variable shapely_box : float -> float -> float -> float -> Polygon.
Variable spatial_operator : Polygon -> Polygon -> bool.

Fixpoint sampling_loop (fuel : nat)
    (bounds : BoundingBox) (size : size_spec) (res : float)
    (valid_footprint : Polygon) (max_retries : Z)
    (retries : Z) : M (BoundingBox * Z) :=
  match fuel with
  | O => fun _ => OutOfFuel
  | S fuel' =>
      let retries := (retries + 1)%Z in
      bounding_box <~ get_random_bounding_box bounds size res ;;
      let bbox := shapely_box (minx bounding_box) (miny bounding_box)
                              (maxx bounding_box) (maxy bounding_box) in
      if spatial_operator bbox valid_footprint
         || (retries >=? max_retries)%Z
      then ret (bounding_box, retries)
      else sampling_loop fuel' bounds size res valid_footprint
                         max_retries retries
  end.

Definition get_random_bounding_box_check_valid_overlap (fuel : nat)
    (bounds : BoundingBox) (size : size_spec) (res : float)
    (valid_footprint : Polygon) (max_retries : Z) : M BoundingBox :=
  r <~ sampling_loop fuel bounds size res valid_footprint max_retries 0%Z ;;
  ret (fst r).

End Constrained.

End Samplers.

Definition tile_to_chips (bounds : BoundingBox) (size : float * float)
    (stride : option (float * float)) : result (Z * Z) :=
  let stride := match stride with
                | None => size
                | Some s => s
                end in
  _ <~~ py_assert (gt (fst stride) zero) ;;
  _ <~~ py_assert (gt (snd stride) zero) ;;
  qr <~~ truediv (sub (sub (maxy bounds) (miny bounds)) (fst size))
                 (fst stride) ;;
  cr <~~ math_ceil qr ;;
  let rows := (cr + 1)%Z in
  qc <~~ truediv (sub (sub (maxx bounds) (minx bounds)) (snd size))
                 (snd stride) ;;
  cc <~~ math_ceil qc ;;
  let cols := (cc + 1)%Z in
  Ok (rows, cols).

(** The values the code has in [width] and [height]. *)
Definition slack_x (bounds : BoundingBox) (size : size_spec) (res : float)
    : float :=
  floordiv_value (sub (sub (maxx bounds) (minx bounds))
                      (snd (_to_tuple size))) res.

Definition slack_y (bounds : BoundingBox) (size : size_spec) (res : float)
    : float :=
  floordiv_value (sub (sub (maxy bounds) (miny bounds))
                      (fst (_to_tuple size))) res.

(** The number of random values an axis takes, by the slack the code
    computes. *)
Definition draws_on (slack : float) : nat :=
  if gt slack zero then 1%nat else O.

Definition draws_per_box (bounds : BoundingBox) (size : size_spec)
    (res : float) : nat :=
  (draws_on (slack_x bounds size res)
   + draws_on (slack_y bounds size res))%nat.

(** The quotients [tile_to_chips] takes the ceiling of. *)
Definition quotient_y (bounds : BoundingBox) (size stride : float * float)
    : float :=
  div (sub (sub (maxy bounds) (miny bounds)) (fst size)) (fst stride).

Definition quotient_x (bounds : BoundingBox) (size stride : float * float)
    : float :=
  div (sub (sub (maxx bounds) (minx bounds)) (snd size)) (snd stride).

Definition stride_or_size (size : float * float)
    (stride : option (float * float)) : float * float :=
  match stride with
  | None => size
  | Some s => s
  end.

Definition in_unit_interval (uniform : nat -> float) : Prop :=
  forall n, leb zero (uniform n) = true /\ ltb (uniform n) one = true.

Definition finite_box (b : BoundingBox) : Prop :=
  is_finite (minx b) = true /\ is_finite (maxx b) = true /\
  is_finite (miny b) = true /\ is_finite (maxy b) = true.

End Binary64.

(** ** Binary64 inputs used in examples *)

Definition b64_box (x0 x1 y0 y1 : Binary64.float) : Binary64.BoundingBox :=
  Binary64.mkBoundingBox x0 x1 y0 y1 (Binary64.of_Z 0) (Binary64.of_Z 1).

Definition b64_tile_10_10 : Binary64.BoundingBox :=
  b64_box (Binary64.of_Z 0) (Binary64.of_Z 10)
          (Binary64.of_Z 0) (Binary64.of_Z 10).

(** The tile [0,12]x[0,10]. *)
Definition b64_tile_12_10 : Binary64.BoundingBox :=
  b64_box (Binary64.of_Z 0) (Binary64.of_Z 12)
          (Binary64.of_Z 0) (Binary64.of_Z 10).

(** The tile [0,2.4]x[0,2.4]. *)
Definition b64_tile_24 : Binary64.BoundingBox :=
  b64_box (Binary64.of_Z 0) (Binary64.ratio 24 10)
          (Binary64.of_Z 0) (Binary64.ratio 24 10).

(** Bounds with x in [4.5, 10] and y in [0, 10]. *)
Definition b64_bounds_45 : Binary64.BoundingBox :=
  b64_box (Binary64.ratio 9 2) (Binary64.of_Z 10)
          (Binary64.of_Z 0) (Binary64.of_Z 10).

(** Bounds with x in [-2^53, 2^53 + 6] and y in [0, 10]. *)
Definition b64_bounds_wide : Binary64.BoundingBox :=
  b64_box (Binary64.of_Z (- 2 ^ 53)) (Binary64.of_Z (2 ^ 53 + 6))
          (Binary64.of_Z 0) (Binary64.of_Z 10).

(** Bounds with x in [2^-60, 1] and y in [0, 10]. *)
Definition b64_bounds_thin : Binary64.BoundingBox :=
  b64_box (Binary64.ratio 1 (2 ^ 60)) (Binary64.of_Z 1)
          (Binary64.of_Z 0) (Binary64.of_Z 10).

Definition b64_halves : nat -> Binary64.float :=
  fun _ => Binary64.ratio 1 2.

Definition b64_three_quarters : nat -> Binary64.float :=
  fun _ => Binary64.ratio 3 4.

(** The subnormal float 1e-320. *)
Definition b64_1e_320 : Binary64.float := S754_finite false 2024 (-1074).

(** ** Four statements of the specification, read on floats

    The statements below read the arithmetic of the specification on the
    numbers the floats stand for.  The code does not satisfy them on every
    input; the inputs on which it departs from them are given with the
    properties of the binary64 embedding. *)

Definition b64_finite_inputs (bounds : Binary64.BoundingBox)
    (size : Binary64.float * Binary64.float) (res : Binary64.float) : Prop :=
  Binary64.finite_box bounds /\
  Binary64.is_finite (fst size) = true /\
  Binary64.is_finite (snd size) = true /\
  Binary64.is_finite res = true.

(** "The box lies within [bounds] and has exactly the requested width and
    height." *)
Definition b64_box_within_and_exact : Prop :=
  forall (uniform : nat -> Binary64.float) (bounds : Binary64.BoundingBox)
         (size : Binary64.size_spec) (res : Binary64.float) (st : rng),
    Binary64.in_unit_interval uniform ->
    b64_finite_inputs bounds (Binary64._to_tuple size) res ->
    0 < Binary64.to_Q res ->
    Binary64.to_Q (fst (Binary64._to_tuple size))
    <= Binary64.to_Q (Binary64.maxy bounds)
       - Binary64.to_Q (Binary64.miny bounds) ->
    Binary64.to_Q (snd (Binary64._to_tuple size))
    <= Binary64.to_Q (Binary64.maxx bounds)
       - Binary64.to_Q (Binary64.minx bounds) ->
    exists (query : Binary64.BoundingBox) (st' : rng),
      Binary64.get_random_bounding_box uniform bounds size res st
      = Binary64.Ok (query, st') /\
      Binary64.to_Q (Binary64.minx bounds)
      <= Binary64.to_Q (Binary64.minx query) /\
      Binary64.to_Q (Binary64.maxx query)
      <= Binary64.to_Q (Binary64.maxx bounds) /\
      Binary64.to_Q (Binary64.miny bounds)
      <= Binary64.to_Q (Binary64.miny query) /\
      Binary64.to_Q (Binary64.maxy query)
      <= Binary64.to_Q (Binary64.maxy bounds) /\
      Binary64.to_Q (Binary64.maxx query)
      - Binary64.to_Q (Binary64.minx query)
      == Binary64.to_Q (snd (Binary64._to_tuple size)) /\
      Binary64.to_Q (Binary64.maxy query)
      - Binary64.to_Q (Binary64.miny query)
      == Binary64.to_Q (fst (Binary64._to_tuple size)) /\
      Binary64.mint query = Binary64.mint bounds /\
      Binary64.maxt query = Binary64.maxt bounds.

(** "rows = ceil ((maxy - miny - height) / stride_height) + 1 and
    cols = ceil ((maxx - minx - width) / stride_width) + 1." *)
Definition b64_chips_by_exact_formula : Prop :=
  forall (bounds : Binary64.BoundingBox)
         (size : Binary64.float * Binary64.float)
         (stride : option (Binary64.float * Binary64.float)),
    b64_finite_inputs bounds size Binary64.one ->
    Binary64.is_finite (fst (Binary64.stride_or_size size stride)) = true ->
    Binary64.is_finite (snd (Binary64.stride_or_size size stride)) = true ->
    0 < Binary64.to_Q (fst (Binary64.stride_or_size size stride)) ->
    0 < Binary64.to_Q (snd (Binary64.stride_or_size size stride)) ->
    Binary64.tile_to_chips bounds size stride
    = Binary64.Ok
        ((Qceiling ((Binary64.to_Q (Binary64.maxy bounds)
                     - Binary64.to_Q (Binary64.miny bounds)
                     - Binary64.to_Q (fst size))
                    / Binary64.to_Q
                        (fst (Binary64.stride_or_size size stride))) + 1)%Z,
         (Qceiling ((Binary64.to_Q (Binary64.maxx bounds)
                     - Binary64.to_Q (Binary64.minx bounds)
                     - Binary64.to_Q (snd size))
                    / Binary64.to_Q
                        (snd (Binary64.stride_or_size size stride))) + 1)%Z).

(** "A negative slack, not zero, when size exceeds the extent." *)
Definition b64_oversize_gives_negative_slack : Prop :=
  forall (bounds : Binary64.BoundingBox) (size : Binary64.size_spec)
         (res : Binary64.float),
    b64_finite_inputs bounds (Binary64._to_tuple size) res ->
    0 < Binary64.to_Q res ->
    Binary64.to_Q (Binary64.maxx bounds) - Binary64.to_Q (Binary64.minx bounds)
    < Binary64.to_Q (snd (Binary64._to_tuple size)) ->
    Binary64.ltb (Binary64.slack_x bounds size res) Binary64.zero = true.

(** "It never fails for strides with both components positive." *)
Definition b64_positive_stride_never_fails : Prop :=
  forall (bounds : Binary64.BoundingBox)
         (size stride : Binary64.float * Binary64.float),
    b64_finite_inputs bounds size Binary64.one ->
    Binary64.gt (fst stride) Binary64.zero = true ->
    Binary64.gt (snd stride) Binary64.zero = true ->
    exists rows cols : Z,
      Binary64.tile_to_chips bounds size (Some stride)
      = Binary64.Ok (rows, cols).

(** ** Exactness of one axis

    The conditions under which no operation of one axis of
    [get_random_bounding_box] rounds: the room is the exact difference, the
    steps the slack counts fit in it, the offset is the exact product, and
    the two corners are exact sums.  [lo'] and [hi'] are the corners the
    call returns, [u] is the random value of the axis. *)
Definition b64_exact_axis (lo hi w res u lo' hi' : Binary64.float) : Prop :=
  let room := Binary64.sub (Binary64.sub hi lo) w in
  let k := Binary64.floordiv_value room res in
  Binary64.to_Q room
  == Binary64.to_Q hi - Binary64.to_Q lo - Binary64.to_Q w /\
  (Binary64.gt k Binary64.zero = true ->
     Binary64.to_Q k * Binary64.to_Q res <= Binary64.to_Q room /\
     Binary64.to_Q (Binary64.mul (Binary64.mul u k) res)
     == Binary64.to_Q u * Binary64.to_Q k * Binary64.to_Q res /\
     Binary64.to_Q lo'
     == Binary64.to_Q lo
        + Binary64.to_Q (Binary64.mul (Binary64.mul u k) res)) /\
  Binary64.to_Q hi' == Binary64.to_Q lo' + Binary64.to_Q w.

(** The random values denote numbers of [0, 1). *)
Definition b64_unit_values (uniform : nat -> Binary64.float) : Prop :=
  forall n, 0 <= Binary64.to_Q (uniform n) /\ Binary64.to_Q (uniform n) < 1.

(** * Properties *)

(** ** Arithmetic of the operators *)

Lemma Qgt_bool_iff (a b : Q) : Qgt_bool a b = true <-> b < a.
Proof.
  unfold Qgt_bool. rewrite negb_true_iff.
  split; intro H.
  - apply Qnot_le_lt. intro Hle. apply Qle_bool_iff in Hle. congruence.
  - destruct (Qle_bool a b) eqn:E; [| reflexivity].
    apply Qle_bool_iff in E. exfalso. apply (Qlt_not_le _ _ H E).
Qed.

Lemma Qgt_bool_false_iff (a b : Q) : Qgt_bool a b = false <-> a <= b.
Proof.
  unfold Qgt_bool. rewrite negb_false_iff. apply Qle_bool_iff.
Qed.

Lemma Qeq_bool_nonzero (b : Q) : ~ b == 0 -> Qeq_bool b 0 = false.
Proof.
  intro H. destruct (Qeq_bool b 0) eqn:E; [| reflexivity].
  apply Qeq_bool_iff in E. contradiction.
Qed.

Lemma floordiv_ok (a b : Q) :
  ~ b == 0 -> floordiv a b = Ok (Qfloor (a / b)).
Proof.
  intro H. unfold floordiv. now rewrite (Qeq_bool_nonzero b H).
Qed.

Lemma truediv_ok (a b : Q) : ~ b == 0 -> truediv a b = Ok (a / b).
Proof.
  intro H. unfold truediv. now rewrite (Qeq_bool_nonzero b H).
Qed.

(** The steps counted by [//] fit: [floor (e / res) * res <= e]. *)
Lemma floor_steps_le (e res : Q) :
  0 < res -> inject_Z (Qfloor (e / res)) * res <= e.
Proof.
  intro Hres.
  assert (Hfl : inject_Z (Qfloor (e / res)) <= e / res) by apply Qfloor_le.
  assert (Hne : ~ res == 0) by (intro E; rewrite E in Hres; discriminate).
  apply Qle_trans with ((e / res) * res).
  - apply Qmult_le_compat_r; [exact Hfl | now apply Qlt_le_weak].
  - rewrite Qmult_comm, Qmult_div_r by exact Hne. apply Qle_refl.
Qed.

(** A random fraction of the whole steps stays within the room there is. *)
Lemma offset_bounds (u e res : Q) (k : Z) :
  0 < res -> 0 <= u -> u < 1 -> (0 < k)%Z ->
  inject_Z k * res <= e ->
  0 <= u * inject_Z k * res /\ u * inject_Z k * res <= e.
Proof.
  intros Hres Hu0 Hu1 Hk Hke.
  assert (Hkq : 0 < inject_Z k) by (change 0 with (inject_Z 0); now rewrite <- Zlt_Qlt).
  assert (Hkr : 0 < inject_Z k * res) by now apply Qmult_lt_0_compat.
  rewrite <- Qmult_assoc.
  split.
  - apply Qmult_le_0_compat; [exact Hu0 | now apply Qlt_le_weak].
  - apply Qle_trans with (1 * (inject_Z k * res)).
    + apply Qmult_le_compat_r; [now apply Qlt_le_weak | now apply Qlt_le_weak].
    + now rewrite Qmult_1_l.
Qed.

(** ** The random box sampler, step by step *)

(** With a non-zero resolution the sampler returns, and this is the box and
    the state of the random source it returns with. *)
Lemma get_random_bounding_box_run
    (uniform : nat -> Q) (bounds : BoundingBox) (size : size_spec) (res : Q)
    (st : rng) :
  ~ res == 0 ->
  let w := slack_x bounds size res in
  let h := slack_y bounds size res in
  let st1 := if (0 <? w)%Z then S st else st in
  let st2 := if (0 <? h)%Z then S st1 else st1 in
  let x := if (0 <? w)%Z
           then minx bounds + uniform st * inject_Z w * res
           else minx bounds in
  let y := if (0 <? h)%Z
           then miny bounds + uniform st1 * inject_Z h * res
           else miny bounds in
  get_random_bounding_box uniform bounds size res st =
  Ok (mkBoundingBox x (x + snd (_to_tuple size)) y (y + fst (_to_tuple size))
                    (mint bounds) (maxt bounds), st2).
Proof.
  intros Hres w h st1 st2 x y.
  unfold get_random_bounding_box, bind, lift.
  rewrite !(floordiv_ok _ res Hres).
  fold (slack_x bounds size res) (slack_y bounds size res).
  fold w h. subst st1 st2 x y.
  destruct (0 <? w)%Z, (0 <? h)%Z; reflexivity.
Qed.

Lemma get_random_bounding_box_zero_res
    (uniform : nat -> Q) (bounds : BoundingBox) (size : size_spec) (res : Q)
    (st : rng) :
  res == 0 ->
  get_random_bounding_box uniform bounds size res st = Raise ZeroDivisionError.
Proof.
  intro Hres. unfold get_random_bounding_box, bind, lift, floordiv.
  apply Qeq_bool_iff in Hres. now rewrite Hres.
Qed.

Lemma positive_nonzero (res : Q) : 0 < res -> ~ res == 0.
Proof.
  intros H E. rewrite E in H. discriminate.
Qed.

(** ** The box size normalizer *)

(** C8.  [_to_tuple] maps every scalar [v] to the pair [(v, v)] and every
    pair to itself; it is a total function of its argument alone, so it has
    no error case and no effect: every size has a pair as its value. *)
Theorem to_tuple_contract :
  (forall v : Q, _to_tuple (Scalar v) = (v, v)) /\
  (forall p : Q * Q, _to_tuple (Pair p) = p) /\
  (forall value : size_spec, exists h w : Q, _to_tuple value = (h, w)).
Proof.
  split; [| split].
  - intro v. reflexivity.
  - intro p. reflexivity.
  - intros [v | [h w]]; simpl; eauto.
Qed.

(** ** The random box sampler *)

(** What a box drawn inside a fitting extent satisfies. *)
Lemma sampled_box_inside
    (uniform : nat -> Q) (bounds : BoundingBox) (size : size_spec) (res : Q)
    (st : rng) :
  in_unit_interval uniform ->
  0 < res ->
  fst (_to_tuple size) <= maxy bounds - miny bounds ->
  snd (_to_tuple size) <= maxx bounds - minx bounds ->
  exists (query : BoundingBox) (st' : rng),
    get_random_bounding_box uniform bounds size res st = Ok (query, st') /\
    minx bounds <= minx query /\ maxx query <= maxx bounds /\
    miny bounds <= miny query /\ maxy query <= maxy bounds /\
    maxx query - minx query == snd (_to_tuple size) /\
    maxy query - miny query == fst (_to_tuple size) /\
    mint query = mint bounds /\ maxt query = maxt bounds.
Proof.
  intros Hu Hres Hh Hw.
  pose proof (get_random_bounding_box_run uniform bounds size res st
                (positive_nonzero res Hres)) as Hrun.
  cbv zeta in Hrun.
  eexists. eexists. split; [exact Hrun |]. cbn [minx maxx miny maxy mint maxt].
  pose proof (floor_steps_le (maxx bounds - minx bounds - snd (_to_tuple size))
                res Hres) as Hfx.
  pose proof (floor_steps_le (maxy bounds - miny bounds - fst (_to_tuple size))
                res Hres) as Hfy.
  fold (slack_x bounds size res) in Hfx.
  fold (slack_y bounds size res) in Hfy.
  set (w := slack_x bounds size res) in *.
  set (h := slack_y bounds size res) in *.
  assert (Hx : minx bounds <=
               (if (0 <? w)%Z
                then minx bounds + uniform st * inject_Z w * res
                else minx bounds) /\
               (if (0 <? w)%Z
                then minx bounds + uniform st * inject_Z w * res
                else minx bounds) + snd (_to_tuple size) <= maxx bounds).
  { destruct (0 <? w)%Z eqn:Ew.
    - apply Z.ltb_lt in Ew.
      destruct (Hu st) as [Hu0 Hu1].
      destruct (offset_bounds (uniform st) _ res w Hres Hu0 Hu1 Ew Hfx)
        as [Ho0 Ho1].
      split; lra.
    - split; lra. }
  set (st1 := if (0 <? w)%Z then S st else st) in *.
  assert (Hy : miny bounds <=
               (if (0 <? h)%Z
                then miny bounds + uniform st1 * inject_Z h * res
                else miny bounds) /\
               (if (0 <? h)%Z
                then miny bounds + uniform st1 * inject_Z h * res
                else miny bounds) + fst (_to_tuple size) <= maxy bounds).
  { destruct (0 <? h)%Z eqn:Eh.
    - apply Z.ltb_lt in Eh.
      destruct (Hu st1) as [Hu0 Hu1].
      destruct (offset_bounds (uniform st1) _ res h Hres Hu0 Hu1 Eh Hfy)
        as [Ho0 Ho1].
      split; lra.
    - split; lra. }
  destruct Hx as [Hx0 Hx1]. destruct Hy as [Hy0 Hy1].
  repeat split; try assumption; try reflexivity; ring.
Qed.

Lemma in_unit_interval_halves : in_unit_interval halves.
Proof.
  intro n. unfold halves. split; reflexivity || (intro H; discriminate H).
Qed.

(** ** The retry loop *)

Section Loop.

Variable uniform : nat -> Q.
Variable Polygon : Type.
Variable shapely_box : Q -> Q -> Q -> Q -> Polygon.
Variable spatial_operator : Polygon -> Polygon -> bool.
Variable bounds : BoundingBox.
Variable size : size_spec.
Variable res : Q.
Variable valid_footprint : Polygon.
Variable max_retries : Z.

Hypothesis res_nonzero : ~ res == 0.

Let loop (fuel : nat) (retries : Z) : M (BoundingBox * Z) :=
  sampling_loop uniform Polygon shapely_box spatial_operator fuel
                bounds size res valid_footprint max_retries retries.

Let draw : M BoundingBox := get_random_bounding_box uniform bounds size res.

Let holds (b : BoundingBox) : bool :=
  spatial_operator (candidate_polygon shapely_box b) valid_footprint.

Lemma draw_returns (st : rng) :
  exists (b : BoundingBox) (st' : rng), draw st = Ok (b, st').
Proof.
  unfold draw.
  pose proof (get_random_bounding_box_run uniform bounds size res st
                res_nonzero) as H.
  cbv zeta in H. eauto.
Qed.

(** One iteration that accepts. *)
Lemma loop_accepts (fuel : nat) (retries : Z) (st st' : rng)
    (b : BoundingBox) :
  draw st = Ok (b, st') ->
  holds b || (retries + 1 >=? max_retries)%Z = true ->
  loop (S fuel) retries st = Ok ((b, (retries + 1)%Z), st').
Proof.
  intros Hd Hc. unfold loop. simpl. unfold bind at 1.
  unfold draw in Hd. rewrite Hd.
  unfold holds, candidate_polygon in Hc. rewrite Hc. reflexivity.
Qed.

(** One iteration that rejects. *)
Lemma loop_rejects (fuel : nat) (retries : Z) (st st' : rng)
    (b : BoundingBox) :
  draw st = Ok (b, st') ->
  holds b || (retries + 1 >=? max_retries)%Z = false ->
  loop (S fuel) retries st = loop fuel (retries + 1)%Z st'.
Proof.
  intros Hd Hc. unfold loop. simpl. unfold bind at 1.
  unfold draw in Hd. rewrite Hd.
  unfold holds, candidate_polygon in Hc. rewrite Hc. reflexivity.
Qed.

Lemma nth_candidate_next (k : nat) (st st' : rng) (b : BoundingBox) :
  draw st = Ok (b, st') ->
  nth_candidate uniform (S k) bounds size res st =
  nth_candidate uniform k bounds size res st'.
Proof.
  intro Hd. simpl. unfold bind. unfold draw in Hd. now rewrite Hd.
Qed.

(** What the loop computes: with fuel for the iterations the budget allows,
    it returns the first candidate that satisfies the relation or is drawn
    when the counter has reached [max_retries]; [k] candidates were rejected
    before it. *)
Lemma loop_returns (fuel : nat) :
  forall (retries : Z) (st : rng),
    (Z.to_nat (Z.max 1 (max_retries - retries)) <= fuel)%nat ->
    exists (k : nat) (b : BoundingBox) (st' : rng),
      loop fuel retries st = Ok ((b, (retries + 1 + Z.of_nat k)%Z), st') /\
      nth_candidate uniform k bounds size res st = Ok (b, st') /\
      (retries + 1 + Z.of_nat k <= Z.max (retries + 1) max_retries)%Z /\
      (holds b = true \/ (max_retries <= retries + 1 + Z.of_nat k)%Z) /\
      (forall j : nat, (j < k)%nat ->
         (retries + 1 + Z.of_nat j < max_retries)%Z /\
         exists (bj : BoundingBox) (stj : rng),
           nth_candidate uniform j bounds size res st = Ok (bj, stj) /\
           holds bj = false).
Proof.
  induction fuel as [| fuel IH]; intros retries st Hfuel.
  - exfalso. lia.
  - destruct (draw_returns st) as (b0 & st0 & Hd).
    destruct (holds b0 || (retries + 1 >=? max_retries)%Z) eqn:Hc.
    + exists O, b0, st0.
      rewrite (loop_accepts fuel retries st st0 b0 Hd Hc).
      simpl Z.of_nat. rewrite Z.add_0_r.
      split; [reflexivity |]. split; [exact Hd |].
      split; [lia |]. split.
      * apply orb_true_iff in Hc. destruct Hc as [Hc | Hc];
          [now left | right; apply Z.geb_le in Hc; lia].
      * intros j Hj. lia.
    + apply orb_false_iff in Hc. destruct Hc as [Hrej Hlt].
      assert (Hlt' : (retries + 1 < max_retries)%Z).
      { rewrite Z.geb_leb in Hlt. apply Z.leb_gt in Hlt. exact Hlt. }
      assert (Hc : holds b0 || (retries + 1 >=? max_retries)%Z = false)
        by (rewrite Hrej, Hlt; reflexivity).
      destruct (IH (retries + 1)%Z st0) as (k & b & st' & Hl & Hn & Hb & Ha & He).
      { lia. }
      exists (S k), b, st'.
      rewrite (loop_rejects fuel retries st st0 b0 Hd Hc).
      rewrite (nth_candidate_next k st st0 b0 Hd).
      replace (retries + 1 + Z.of_nat (S k))%Z
        with (retries + 1 + 1 + Z.of_nat k)%Z by lia.
      split; [exact Hl |]. split; [exact Hn |].
      split; [lia |]. split; [exact Ha |].
      intros [| j] Hj.
      * split; [simpl; lia |]. exists b0, st0. split; [exact Hd | exact Hrej].
      * destruct (He j) as [Hjl (bj & stj & Hnj & Hrj)]; [lia |].
        split; [lia |].
        exists bj, stj. split; [| exact Hrj].
        now rewrite (nth_candidate_next j st st0 b0 Hd).
Qed.

Lemma nth_candidate_drawn (k : nat) :
  forall (st st' : rng) (b : BoundingBox),
    nth_candidate uniform k bounds size res st = Ok (b, st') ->
    exists st0 : rng, draw st0 = Ok (b, st').
Proof.
  induction k as [| k IH]; intros st st' b Hn.
  - exists st. exact Hn.
  - destruct (draw_returns st) as (b0 & st0 & Hd).
    rewrite (nth_candidate_next k st st0 b0 Hd) in Hn.
    exact (IH st0 st' b Hn).
Qed.

(** More fuel does not change what the loop returns. *)
Lemma loop_fuel_mono (fuel : nat) :
  forall (fuel' : nat) (retries : Z) (st : rng)
         (r : (BoundingBox * Z) * rng),
    (fuel <= fuel')%nat ->
    loop fuel retries st = Ok r -> loop fuel' retries st = Ok r.
Proof.
  induction fuel as [| fuel IH]; intros fuel' retries st r Hle Hl.
  - discriminate Hl.
  - destruct fuel' as [| fuel']; [lia |].
    destruct (draw_returns st) as (b0 & st0 & Hd).
    destruct (holds b0 || (retries + 1 >=? max_retries)%Z) eqn:Hc.
    + rewrite (loop_accepts fuel retries st st0 b0 Hd Hc) in Hl.
      now rewrite (loop_accepts fuel' retries st st0 b0 Hd Hc).
    + rewrite (loop_rejects fuel retries st st0 b0 Hd Hc) in Hl.
      rewrite (loop_rejects fuel' retries st st0 b0 Hd Hc).
      apply IH; [lia | exact Hl].
Qed.

(** When no candidate that can be drawn satisfies the relation, the loop
    runs until the counter reaches the budget and returns the candidate of
    that iteration. *)
Lemma loop_exhausts (fuel : nat) (st : rng) :
  (forall (st0 st1 : rng) (b : BoundingBox),
     draw st0 = Ok (b, st1) -> holds b = false) ->
  (Z.to_nat (budget max_retries) <= fuel)%nat ->
  exists (b : BoundingBox) (st' : rng),
    loop fuel 0%Z st = Ok ((b, budget max_retries), st') /\
    nth_candidate uniform (Z.to_nat (budget max_retries) - 1)
                  bounds size res st = Ok (b, st').
Proof.
  intros Hnever Hfuel. unfold budget in *.
  destruct (loop_returns fuel 0%Z st) as (k & b & st' & Hl & Hn & Hb & Ha & _).
  { rewrite Z.sub_0_r. exact Hfuel. }
  destruct (nth_candidate_drawn k st st' b Hn) as (st0 & Hd).
  pose proof (Hnever st0 st' b Hd) as Hf.
  destruct Ha as [Ha | Ha]; [congruence |].
  assert (Hk : (0 + 1 + Z.of_nat k = Z.max 1 max_retries)%Z) by lia.
  exists b, st'. rewrite <- Hk. split; [exact Hl |].
  replace (Z.to_nat (0 + 1 + Z.of_nat k) - 1)%nat with k by lia.
  exact Hn.
Qed.

(** ... and with less fuel than that it does not return. *)
Lemma loop_starves (fuel : nat) :
  (forall (st0 st1 : rng) (b : BoundingBox),
     draw st0 = Ok (b, st1) -> holds b = false) ->
  forall (retries : Z) (st : rng),
    (Z.of_nat fuel < max_retries - retries)%Z ->
    loop fuel retries st = OutOfFuel.
Proof.
  intro Hnever.
  induction fuel as [| fuel IH]; intros retries st Hlt.
  - reflexivity.
  - destruct (draw_returns st) as (b0 & st0 & Hd).
    assert (Hc : holds b0 || (retries + 1 >=? max_retries)%Z = false).
    { rewrite (Hnever st st0 b0 Hd). simpl.
      rewrite Z.geb_leb. apply Z.leb_gt. lia. }
    rewrite (loop_rejects fuel retries st st0 b0 Hd Hc).
    apply IH. lia.
Qed.

End Loop.

(** ** The constrained random box sampler *)

Lemma wrapper_of_loop
    (uniform : nat -> Q) (Polygon : Type)
    (shapely_box : Q -> Q -> Q -> Q -> Polygon)
    (spatial_operator : Polygon -> Polygon -> bool)
    (fuel : nat) (bounds : BoundingBox) (size : size_spec) (res : Q)
    (valid_footprint : Polygon) (max_retries : Z) (st st' : rng)
    (b : BoundingBox) (n : Z) :
  sampling_loop uniform Polygon shapely_box spatial_operator fuel
                bounds size res valid_footprint max_retries 0%Z st =
  Ok ((b, n), st') ->
  get_random_bounding_box_check_valid_overlap
    uniform Polygon shapely_box spatial_operator fuel
    bounds size res valid_footprint max_retries st = Ok (b, st').
Proof.
  intro H. unfold get_random_bounding_box_check_valid_overlap, bind.
  now rewrite H.
Qed.

(** C2, as the code has it.  For a non-zero resolution and whatever the
    relation returns, the sampler returns a box, without an error, after at
    most [max 1 max_retries] iterations: the first iteration always runs.
    The box is the candidate of the iteration it returns in.  When the
    relation holds for no candidate, that iteration is the last one the
    budget allows, number [max 1 max_retries]. *)
Theorem constrained_sampler_terminates
    (uniform : nat -> Q) (Polygon : Type)
    (shapely_box : Q -> Q -> Q -> Q -> Polygon)
    (spatial_operator : Polygon -> Polygon -> bool)
    (bounds : BoundingBox) (size : size_spec) (res : Q)
    (valid_footprint : Polygon) (max_retries : Z) (fuel : nat) (st : rng) :
  ~ res == 0 ->
  (Z.to_nat (budget max_retries) <= fuel)%nat ->
  exists (k : nat) (b : BoundingBox) (st' : rng),
    sampling_loop uniform Polygon shapely_box spatial_operator fuel
                  bounds size res valid_footprint max_retries 0%Z st =
    Ok ((b, (1 + Z.of_nat k)%Z), st') /\
    get_random_bounding_box_check_valid_overlap
      uniform Polygon shapely_box spatial_operator fuel
      bounds size res valid_footprint max_retries st = Ok (b, st') /\
    nth_candidate uniform k bounds size res st = Ok (b, st') /\
    (1 + Z.of_nat k <= budget max_retries)%Z /\
    ((forall c : BoundingBox,
        spatial_operator (candidate_polygon shapely_box c) valid_footprint
        = false) ->
     (1 + Z.of_nat k = budget max_retries)%Z).
Proof.
  intros Hres Hfuel. unfold budget in *.
  destruct (loop_returns uniform Polygon shapely_box spatial_operator
              bounds size res valid_footprint max_retries Hres fuel 0%Z st)
    as (k & b & st' & Hl & Hn & Hb & Ha & _).
  { rewrite Z.sub_0_r. exact Hfuel. }
  change (0 + 1)%Z with 1%Z in *.
  exists k, b, st'.
  split; [exact Hl |].
  split; [exact (wrapper_of_loop _ _ _ _ _ _ _ _ _ _ _ _ _ _ Hl) |].
  split; [exact Hn |].
  split; [exact Hb |].
  intro Hnever. destruct Ha as [Ha | Ha].
  - rewrite Hnever in Ha. discriminate Ha.
  - lia.
Qed.

(** C7.  With [max_retries = 5] and a relation that holds for no candidate,
    the loop runs exactly five iterations: it returns with the counter at 5,
    the box it returns is the fifth candidate drawn, and fewer than five
    iterations do not let it return. *)
Theorem five_retries_then_fifth_candidate
    (uniform : nat -> Q) (Polygon : Type)
    (shapely_box : Q -> Q -> Q -> Q -> Polygon)
    (spatial_operator : Polygon -> Polygon -> bool)
    (bounds : BoundingBox) (size : size_spec) (res : Q)
    (valid_footprint : Polygon) (st : rng) :
  ~ res == 0 ->
  (forall c : BoundingBox,
     spatial_operator (candidate_polygon shapely_box c) valid_footprint
     = false) ->
  (forall fuel : nat, (fuel < 5)%nat ->
     sampling_loop uniform Polygon shapely_box spatial_operator fuel
                   bounds size res valid_footprint 5%Z 0%Z st = OutOfFuel) /\
  exists (b : BoundingBox) (st' : rng),
    nth_candidate uniform 4 bounds size res st = Ok (b, st') /\
    forall fuel : nat, (5 <= fuel)%nat ->
      sampling_loop uniform Polygon shapely_box spatial_operator fuel
                    bounds size res valid_footprint 5%Z 0%Z st =
      Ok ((b, 5%Z), st') /\
      get_random_bounding_box_check_valid_overlap
        uniform Polygon shapely_box spatial_operator fuel
        bounds size res valid_footprint 5%Z st = Ok (b, st').
Proof.
  intros Hres Hnever.
  assert (Hdrawn : forall (st0 st1 : rng) (b : BoundingBox),
             get_random_bounding_box uniform bounds size res st0
             = Ok (b, st1) ->
             spatial_operator (candidate_polygon shapely_box b)
                              valid_footprint = false)
    by (intros; apply Hnever).
  split.
  - intros fuel Hlt.
    apply (loop_starves uniform Polygon shapely_box spatial_operator
             bounds size res valid_footprint 5%Z Hres fuel Hdrawn).
    lia.
  - destruct (loop_exhausts uniform Polygon shapely_box spatial_operator
                bounds size res valid_footprint 5%Z Hres 5%nat st Hdrawn)
      as (b & st' & Hl & Hn).
    { vm_compute. lia. }
    exists b, st'. split; [exact Hn |].
    intros fuel Hfuel.
    assert (Hl' := loop_fuel_mono uniform Polygon shapely_box
                     spatial_operator bounds size res valid_footprint 5%Z
                     Hres 5%nat fuel 0%Z st _ Hfuel Hl).
    split; [exact Hl' |].
    exact (wrapper_of_loop _ _ _ _ _ _ _ _ _ _ _ _ _ _ Hl').
Qed.

(** C9.  With [max_retries <= 0] the first candidate is returned after one
    iteration and one draw, whatever the relation returns: the counter is 1
    when the exhaustion test is made. *)
Theorem nonpositive_budget_returns_first_candidate
    (uniform : nat -> Q) (Polygon : Type)
    (shapely_box : Q -> Q -> Q -> Q -> Polygon)
    (spatial_operator : Polygon -> Polygon -> bool)
    (bounds : BoundingBox) (size : size_spec) (res : Q)
    (valid_footprint : Polygon) (max_retries : Z) (fuel : nat) (st : rng) :
  ~ res == 0 ->
  (max_retries <= 0)%Z ->
  (1 <= fuel)%nat ->
  exists (b : BoundingBox) (st' : rng),
    get_random_bounding_box uniform bounds size res st = Ok (b, st') /\
    sampling_loop uniform Polygon shapely_box spatial_operator fuel
                  bounds size res valid_footprint max_retries 0%Z st =
    Ok ((b, 1%Z), st') /\
    get_random_bounding_box_check_valid_overlap
      uniform Polygon shapely_box spatial_operator fuel
      bounds size res valid_footprint max_retries st = Ok (b, st').
Proof.
  intros Hres Hmax Hfuel.
  destruct fuel as [| fuel]; [lia |].
  pose proof (get_random_bounding_box_run uniform bounds size res st Hres)
    as Hd.
  cbv zeta in Hd.
  eexists. eexists. split; [exact Hd |].
  assert (Hl := loop_accepts uniform Polygon shapely_box spatial_operator
                  bounds size res valid_footprint max_retries fuel 0%Z
                  st _ _ Hd).
  change (0 + 1)%Z with 1%Z in Hl.
  assert (Hge : (1 >=? max_retries)%Z = true)
    by (rewrite Z.geb_leb; apply Z.leb_le; lia).
  rewrite Hge, orb_true_r in Hl. specialize (Hl eq_refl).
  split; [exact Hl |].
  exact (wrapper_of_loop _ _ _ _ _ _ _ _ _ _ _ _ _ _ Hl).
Qed.

(** ** Rectangles: the tests decide the relations *)

Lemma rect_Qlt_bool_iff (a b : Q) : Shapely.Qlt_bool a b = true <-> a < b.
Proof.
  unfold Shapely.Qlt_bool. rewrite negb_true_iff. split; intro H.
  - apply Qnot_le_lt. intro Hle. apply Qle_bool_iff in Hle. congruence.
  - destruct (Qle_bool b a) eqn:E; [| reflexivity].
    apply Qle_bool_iff in E. exfalso. apply (Qlt_not_le _ _ H E).
Qed.

Lemma rect_has_area_iff (r : Shapely.rectangle) :
  Shapely.has_area r = true <->
  Shapely.x_lo r < Shapely.x_hi r /\ Shapely.y_lo r < Shapely.y_hi r.
Proof.
  unfold Shapely.has_area.
  now rewrite andb_true_iff, !rect_Qlt_bool_iff.
Qed.

Lemma rect_interiors_meet_iff (a b : Shapely.rectangle) :
  Shapely.interiors_meet a b = true <->
  (Shapely.x_lo a < Shapely.x_hi a /\ Shapely.y_lo a < Shapely.y_hi a) /\
  (Shapely.x_lo b < Shapely.x_hi b /\ Shapely.y_lo b < Shapely.y_hi b) /\
  (Shapely.x_lo a < Shapely.x_hi b /\ Shapely.x_lo b < Shapely.x_hi a) /\
  (Shapely.y_lo a < Shapely.y_hi b /\ Shapely.y_lo b < Shapely.y_hi a).
Proof.
  unfold Shapely.interiors_meet.
  rewrite !andb_true_iff, !rect_has_area_iff, !rect_Qlt_bool_iff. tauto.
Qed.

Lemma rect_covered_by_iff (a b : Shapely.rectangle) :
  Shapely.covered_by a b = true <->
  (Shapely.x_lo b <= Shapely.x_lo a /\ Shapely.x_hi a <= Shapely.x_hi b) /\
  (Shapely.y_lo b <= Shapely.y_lo a /\ Shapely.y_hi a <= Shapely.y_hi b).
Proof.
  unfold Shapely.covered_by.
  rewrite !andb_true_iff, !Qle_bool_iff. tauto.
Qed.

(** Two open intervals that cross share a point. *)
Lemma open_intervals_meet (a0 a1 b0 b1 : Q) :
  a0 < a1 -> b0 < b1 -> a0 < b1 -> b0 < a1 ->
  exists x : Q, (a0 < x /\ x < a1) /\ (b0 < x /\ x < b1).
Proof.
  intros Ha Hb Hab Hba.
  destruct (Qlt_le_dec a0 b0) as [Hlo | Hlo];
    destruct (Qlt_le_dec a1 b1) as [Hhi | Hhi].
  - exists ((b0 + a1) * (1 # 2)). repeat split; lra.
  - exists ((b0 + b1) * (1 # 2)). repeat split; lra.
  - exists ((a0 + a1) * (1 # 2)). repeat split; lra.
  - exists ((a0 + b1) * (1 # 2)). repeat split; lra.
Qed.

(** An open interval that starts before [b0] has a point before [b0]. *)
Lemma open_interval_below (a0 a1 b0 : Q) :
  a0 < a1 -> a0 < b0 -> exists x : Q, (a0 < x /\ x < a1) /\ x < b0.
Proof.
  intros Ha Hab.
  destruct (Qlt_le_dec a1 b0) as [H | H].
  - exists ((a0 + a1) * (1 # 2)). repeat split; lra.
  - exists ((a0 + b0) * (1 # 2)). repeat split; lra.
Qed.

(** An open interval that ends after [b1] has a point after [b1]. *)
Lemma open_interval_above (a0 a1 b1 : Q) :
  a0 < a1 -> b1 < a1 -> exists x : Q, (a0 < x /\ x < a1) /\ b1 < x.
Proof.
  intros Ha Hab.
  destruct (Qlt_le_dec a0 b1) as [H | H].
  - exists ((b1 + a1) * (1 # 2)). repeat split; lra.
  - exists ((a0 + a1) * (1 # 2)). repeat split; lra.
Qed.

Lemma rect_interiors_meet_spec (a b : Shapely.rectangle) :
  Shapely.interiors_meet a b = true <->
  exists p, Shapely.interior a p /\ Shapely.interior b p.
Proof.
  rewrite rect_interiors_meet_iff. unfold Shapely.interior. split.
  - intros [[Hax Hay] [[Hbx Hby] [[Hx1 Hx2] [Hy1 Hy2]]]].
    destruct (open_intervals_meet _ _ _ _ Hax Hbx Hx1 Hx2) as (x & Hxa & Hxb).
    destruct (open_intervals_meet _ _ _ _ Hay Hby Hy1 Hy2) as (y & Hya & Hyb).
    exists (x, y). simpl. tauto.
  - intros ([x y] & [[A1 A2] [A3 A4]] & [[B1 B2] [B3 B4]]). simpl in *.
    repeat split; lra.
Qed.

Lemma rect_covered_by_spec (a b : Shapely.rectangle) :
  Shapely.x_lo a <= Shapely.x_hi a -> Shapely.y_lo a <= Shapely.y_hi a ->
  (Shapely.covered_by a b = true <->
   forall p, Shapely.inside a p -> Shapely.inside b p).
Proof.
  intros Hx Hy. rewrite rect_covered_by_iff. unfold Shapely.inside. split.
  - intros [[C1 C2] [C3 C4]] [x y] [[A1 A2] [A3 A4]]. simpl in *.
    repeat split; lra.
  - intro H.
    destruct (H (Shapely.x_lo a, Shapely.y_lo a)) as [[L1 _] [L2 _]];
      [simpl; repeat split; lra |].
    destruct (H (Shapely.x_hi a, Shapely.y_hi a)) as [[_ U1] [_ U2]];
      [simpl; repeat split; lra |].
    simpl in *. tauto.
Qed.

(** A rectangle with area that is not covered has an interior point
    outside. *)
Lemma rect_not_covered_spec (a b : Shapely.rectangle) :
  Shapely.has_area a = true ->
  (Shapely.covered_by a b = false <->
   exists p, Shapely.interior a p /\ ~ Shapely.inside b p).
Proof.
  intro Ha. apply rect_has_area_iff in Ha. destruct Ha as [Hax Hay].
  split.
  - intro Hc.
    assert (Hcases : Shapely.x_lo a < Shapely.x_lo b \/
                     Shapely.x_hi b < Shapely.x_hi a \/
                     Shapely.y_lo a < Shapely.y_lo b \/
                     Shapely.y_hi b < Shapely.y_hi a).
    { destruct (Qlt_le_dec (Shapely.x_lo a) (Shapely.x_lo b)); [tauto |].
      destruct (Qlt_le_dec (Shapely.x_hi b) (Shapely.x_hi a)); [tauto |].
      destruct (Qlt_le_dec (Shapely.y_lo a) (Shapely.y_lo b)); [tauto |].
      destruct (Qlt_le_dec (Shapely.y_hi b) (Shapely.y_hi a)); [tauto |].
      exfalso.
      assert (Ht : Shapely.covered_by a b = true)
        by (apply rect_covered_by_iff; tauto).
      congruence. }
    unfold Shapely.interior, Shapely.inside.
    destruct Hcases as [H | [H | [H | H]]].
    + destruct (open_interval_below _ _ _ Hax H) as (x & Hx & Hout).
      exists (x, (Shapely.y_lo a + Shapely.y_hi a) * (1 # 2)). simpl.
      split; [repeat split; lra | intros [[B1 _] _]; lra].
    + destruct (open_interval_above _ _ _ Hax H) as (x & Hx & Hout).
      exists (x, (Shapely.y_lo a + Shapely.y_hi a) * (1 # 2)). simpl.
      split; [repeat split; lra | intros [[_ B1] _]; lra].
    + destruct (open_interval_below _ _ _ Hay H) as (y & Hy & Hout).
      exists ((Shapely.x_lo a + Shapely.x_hi a) * (1 # 2), y). simpl.
      split; [repeat split; lra | intros [_ [B1 _]]; lra].
    + destruct (open_interval_above _ _ _ Hay H) as (y & Hy & Hout).
      exists ((Shapely.x_lo a + Shapely.x_hi a) * (1 # 2), y). simpl.
      split; [repeat split; lra | intros [_ [_ B1]]; lra].
  - intros ([x y] & [[A1 A2] [A3 A4]] & Hout). simpl in *.
    destruct (Shapely.covered_by a b) eqn:Hc; [| reflexivity].
    exfalso. apply Hout.
    apply rect_covered_by_iff in Hc. destruct Hc as [[C1 C2] [C3 C4]].
    unfold Shapely.inside. simpl. repeat split; lra.
Qed.

(** [within] decides [Within]. *)
Lemma rect_within_spec (a b : Shapely.rectangle) :
  Shapely.within a b = true <-> Shapely.Within a b.
Proof.
  unfold Shapely.within, Shapely.Within. rewrite andb_true_iff. split.
  - intros [Hm Hc]. pose proof Hm as Hm'.
    apply rect_interiors_meet_iff in Hm'. destruct Hm' as [[Hax Hay] _].
    split.
    + apply rect_covered_by_spec; [lra | lra | exact Hc].
    + now apply rect_interiors_meet_spec.
  - intros [Hin Hm]. apply rect_interiors_meet_spec in Hm.
    split; [exact Hm |].
    pose proof Hm as Hm'.
    apply rect_interiors_meet_iff in Hm'. destruct Hm' as [[Hax Hay] _].
    apply rect_covered_by_spec; [lra | lra | exact Hin].
Qed.

(** [overlaps] decides [Overlaps]. *)
Lemma rect_overlaps_spec (a b : Shapely.rectangle) :
  Shapely.overlaps a b = true <-> Shapely.Overlaps a b.
Proof.
  unfold Shapely.overlaps, Shapely.Overlaps.
  rewrite !andb_true_iff, !negb_true_iff. split.
  - intros [[Hm Hab] Hba].
    assert (Ha : Shapely.has_area a = true /\ Shapely.has_area b = true).
    { apply rect_interiors_meet_iff in Hm.
      split; apply rect_has_area_iff; tauto. }
    destruct Ha as [Ha Hb].
    split; [now apply rect_interiors_meet_spec |].
    split; [now apply rect_not_covered_spec | now apply rect_not_covered_spec].
  - intros [Hm [Hab Hba]]. apply rect_interiors_meet_spec in Hm.
    assert (Ha : Shapely.has_area a = true /\ Shapely.has_area b = true).
    { apply rect_interiors_meet_iff in Hm.
      split; apply rect_has_area_iff; tauto. }
    destruct Ha as [Ha Hb].
    split; [split |]; [exact Hm | |]; now apply rect_not_covered_spec.
Qed.

(** ** The footprint that is the whole extent *)

(** A candidate drawn for a fitting size has area and lies in the extent. *)
Lemma candidate_in_extent
    (uniform : nat -> Q) (bounds : BoundingBox) (size : size_spec) (res : Q)
    (st st' : rng) (b : BoundingBox) :
  in_unit_interval uniform -> size_fits bounds size -> 0 < res ->
  get_random_bounding_box uniform bounds size res st = Ok (b, st') ->
  Shapely.interiors_meet (candidate_polygon Shapely.box b)
                         (full_extent bounds) = true /\
  Shapely.covered_by (candidate_polygon Shapely.box b)
                     (full_extent bounds) = true.
Proof.
  intros Hu [[Hh0 Hh] [Hw0 Hw]] Hres Hd.
  destruct (sampled_box_inside uniform bounds size res st Hu Hres Hh Hw)
    as (q & st'' & Hq & Hx0 & Hx1 & Hy0 & Hy1 & Hwd & Hht & _).
  rewrite Hd in Hq. injection Hq as <- <-.
  rewrite rect_interiors_meet_iff, rect_covered_by_iff.
  unfold candidate_polygon, full_extent, Shapely.box. simpl.
  repeat split; lra.
Qed.

Lemma candidate_within_extent
    (uniform : nat -> Q) (bounds : BoundingBox) (size : size_spec) (res : Q)
    (st st' : rng) (b : BoundingBox) :
  in_unit_interval uniform -> size_fits bounds size -> 0 < res ->
  get_random_bounding_box uniform bounds size res st = Ok (b, st') ->
  Shapely.within (candidate_polygon Shapely.box b) (full_extent bounds)
  = true.
Proof.
  intros Hu Hfit Hres Hd.
  destruct (candidate_in_extent uniform bounds size res st st' b
              Hu Hfit Hres Hd) as [Hm Hc].
  unfold Shapely.within. now rewrite Hm, Hc.
Qed.

Lemma candidate_not_overlapping_extent
    (uniform : nat -> Q) (bounds : BoundingBox) (size : size_spec) (res : Q)
    (st st' : rng) (b : BoundingBox) :
  in_unit_interval uniform -> size_fits bounds size -> 0 < res ->
  get_random_bounding_box uniform bounds size res st = Ok (b, st') ->
  Shapely.overlaps (candidate_polygon Shapely.box b) (full_extent bounds)
  = false.
Proof.
  intros Hu Hfit Hres Hd.
  destruct (candidate_in_extent uniform bounds size res st st' b
              Hu Hfit Hres Hd) as [Hm Hc].
  unfold Shapely.overlaps. now rewrite Hm, Hc.
Qed.



(** C2, as written, does not hold: with [max_retries = 0] the loop runs one
    iteration, which is more than [max_retries]. *)
Lemma returns_within_max_retries_fails :
  (exists (b : BoundingBox) (st' : rng),
     sampling_loop halves unit (fun _ _ _ _ => tt) (fun _ _ => false)
                   1 tile_10_10 (Scalar 5) 1 tt 0%Z 0%Z O
     = Ok ((b, 1%Z), st')) /\
  ~ returns_within_max_retries.
Proof.
  split.
  - eexists. eexists. vm_compute. reflexivity.
  - intro H.
    destruct (H halves unit (fun _ _ _ _ => tt) (fun _ _ => false)
                tile_10_10 (Scalar 5) 1 tt 0%Z O eq_refl)
      as (fuel & b & n & st' & Hl & Hn).
    destruct fuel as [| fuel]; [discriminate Hl |].
    assert (Hnz : ~ 1 == 0) by discriminate.
    pose proof (get_random_bounding_box_run halves tile_10_10 (Scalar 5) 1 O
                  Hnz) as Hd.
    cbv zeta in Hd.
    pose proof (loop_accepts halves unit (fun _ _ _ _ => tt)
                  (fun _ _ => false) tile_10_10 (Scalar 5) 1 tt 0%Z fuel
                  0%Z O _ _ Hd eq_refl) as Ha.
    rewrite Ha in Hl. injection Hl as _ Hone _. simpl in Hone. lia.
Qed.

(** ** The grid tiler *)

Lemma tile_to_chips_run (bounds : BoundingBox) (size : Q * Q)
    (stride : option (Q * Q)) :
  0 < fst (stride_or_size size stride) ->
  0 < snd (stride_or_size size stride) ->
  tile_to_chips bounds size stride =
  Ok (chips_along (maxy bounds - miny bounds) (fst size)
                  (fst (stride_or_size size stride)),
      chips_along (maxx bounds - minx bounds) (snd size)
                  (snd (stride_or_size size stride))).
Proof.
  intros Hh Hw. unfold tile_to_chips.
  change (match stride with None => size | Some s => s end)
    with (stride_or_size size stride).
  set (s := stride_or_size size stride) in *.
  apply Qgt_bool_iff in Hh as Bh. apply Qgt_bool_iff in Hw as Bw.
  rewrite Bh, Bw. simpl.
  rewrite (truediv_ok _ (fst s) (positive_nonzero _ Hh)). simpl.
  rewrite (truediv_ok _ (snd s) (positive_nonzero _ Hw)). simpl.
  reflexivity.
Qed.

Lemma tile_to_chips_assert (bounds : BoundingBox) (size : Q * Q)
    (stride : option (Q * Q)) :
  fst (stride_or_size size stride) <= 0 \/
  snd (stride_or_size size stride) <= 0 ->
  tile_to_chips bounds size stride = Raise AssertionError.
Proof.
  intro H. unfold tile_to_chips.
  change (match stride with None => size | Some s => s end)
    with (stride_or_size size stride).
  set (s := stride_or_size size stride) in *.
  destruct (Qgt_bool (fst s) 0) eqn:Bh; [| reflexivity].
  destruct H as [H | H].
  - apply Qgt_bool_false_iff in H. congruence.
  - apply Qgt_bool_false_iff in H. rewrite H. reflexivity.
Qed.

(** The count of an axis is one more than the least number of strides that
    cover what the first chip leaves of the extent. *)
Lemma chips_along_least (extent size stride : Q) :
  0 < stride ->
  inject_Z (chips_along extent size stride - 2) * stride < extent - size /\
  extent - size <= inject_Z (chips_along extent size stride - 1) * stride.
Proof.
  intro Hs. unfold chips_along.
  set (x := (extent - size) / stride).
  assert (Hx : x * stride == extent - size).
  { unfold x. rewrite Qmult_comm, Qmult_div_r; [reflexivity |].
    now apply positive_nonzero. }
  replace (Qceiling x + 1 - 2)%Z with (Qceiling x - 1)%Z by lia.
  replace (Qceiling x + 1 - 1)%Z with (Qceiling x) by lia.
  split.
  - rewrite <- Hx. apply Qmult_lt_compat_r; [exact Hs | apply Qceiling_lt].
  - rewrite <- Hx. apply Qmult_le_compat_r;
      [apply Qle_ceiling | now apply Qlt_le_weak].
Qed.


(** ** The theorems at concrete inputs *)

Lemma nothing_overlaps_far_point (c : BoundingBox) :
  Shapely.overlaps (candidate_polygon Shapely.box c) far_point = false.
Proof.
  unfold Shapely.overlaps, Shapely.interiors_meet.
  destruct (Shapely.has_area (candidate_polygon Shapely.box c));
    reflexivity.
Qed.

Lemma size_5_fits_tile_10_10 : size_fits tile_10_10 (Scalar 5).
Proof.
  vm_compute. repeat split; discriminate.
Qed.

Lemma constrained_sampler_terminates_witness :
  ~ 1 == 0 /\
  (Z.to_nat (budget 5) <= 5)%nat /\
  exists (k : nat) (b : BoundingBox) (st' : rng),
    sampling_loop quarters Shapely.rectangle Shapely.box Shapely.overlaps
                  5 tile_10_10 (Scalar 5) 1 far_point 5%Z 0%Z O
    = Ok ((b, (1 + Z.of_nat k)%Z), st') /\
    (1 + Z.of_nat k = budget 5)%Z.
Proof.
  assert (H1 : ~ 1 == 0) by discriminate.
  assert (H2 : (Z.to_nat (budget 5) <= 5)%nat) by (vm_compute; lia).
  split; [exact H1 |]. split; [exact H2 |].
  destruct (constrained_sampler_terminates
              quarters Shapely.rectangle Shapely.box Shapely.overlaps
              tile_10_10 (Scalar 5) 1 far_point 5%Z 5%nat O H1 H2)
    as (k & b & st' & Hl & _ & _ & _ & Hlast).
  exists k, b, st'. split; [exact Hl |].
  exact (Hlast nothing_overlaps_far_point).
Defined.

Lemma five_retries_then_fifth_candidate_witness :
  ~ 1 == 0 /\
  (forall c : BoundingBox,
     Shapely.overlaps (candidate_polygon Shapely.box c) far_point = false) /\
  exists (b : BoundingBox) (st' : rng),
    nth_candidate quarters 4 tile_10_10 (Scalar 5) 1 O = Ok (b, st') /\
    sampling_loop quarters Shapely.rectangle Shapely.box Shapely.overlaps
                  5 tile_10_10 (Scalar 5) 1 far_point 5%Z 0%Z O
    = Ok ((b, 5%Z), st').
Proof.
  assert (H1 : ~ 1 == 0) by discriminate.
  split; [exact H1 |]. split; [exact nothing_overlaps_far_point |].
  destruct (five_retries_then_fifth_candidate
              quarters Shapely.rectangle Shapely.box Shapely.overlaps
              tile_10_10 (Scalar 5) 1 far_point O H1
              nothing_overlaps_far_point)
    as (_ & b & st' & Hn & Hl).
  exists b, st'. split; [exact Hn |].
  exact (proj1 (Hl 5%nat (le_n 5))).
Defined.

Lemma nonpositive_budget_returns_first_candidate_witness :
  ~ 1 == 0 /\
  (-2 <= 0)%Z /\
  (1 <= 1)%nat /\
  exists (b : BoundingBox) (st' : rng),
    get_random_bounding_box quarters tile_10_10 (Scalar 5) 1 O
    = Ok (b, st') /\
    sampling_loop quarters Shapely.rectangle Shapely.box Shapely.overlaps
                  1 tile_10_10 (Scalar 5) 1 far_point (-2)%Z 0%Z O
    = Ok ((b, 1%Z), st').
Proof.
  assert (H1 : ~ 1 == 0) by discriminate.
  assert (H2 : (-2 <= 0)%Z) by lia.
  assert (H3 : (1 <= 1)%nat) by lia.
  split; [exact H1 |]. split; [exact H2 |]. split; [exact H3 |].
  destruct (nonpositive_budget_returns_first_candidate
              quarters Shapely.rectangle Shapely.box Shapely.overlaps
              tile_10_10 (Scalar 5) 1 far_point (-2)%Z 1%nat O H1 H2 H3)
    as (b & st' & Hd & Hl & _).
  exists b, st'. split; [exact Hd | exact Hl].
Defined.



(** ** Runs of the model *)

Example run_random_box :
  get_random_bounding_box quarters tile_10_10 (Pair (4, 6)) 1 1%nat =
  Ok (mkBoundingBox (4 # 4) (28 # 4) (12 # 4) (28 # 4) 0 1, 3%nat).
Proof. vm_compute. reflexivity. Qed.

Example run_random_box_oversized :
  get_random_bounding_box quarters tile_10_10 (Scalar 30) 1 O =
  Ok (mkBoundingBox 0 30 0 30 0 1, O).
Proof. vm_compute. reflexivity. Qed.

Example run_random_box_zero_res :
  get_random_bounding_box quarters tile_10_10 (Scalar 5) 0 O =
  Raise ZeroDivisionError.
Proof. vm_compute. reflexivity. Qed.

Example run_five_retries :
  sampling_loop quarters Shapely.rectangle Shapely.box Shapely.overlaps
                5 tile_10_10 (Scalar 5) 1 far_point 5%Z 0%Z O =
  Ok ((mkBoundingBox (0 # 4) (20 # 4) (5 # 4) (25 # 4) 0 1, 5%Z), 10%nat).
Proof. vm_compute. reflexivity. Qed.

Example run_four_iterations_do_not_return :
  sampling_loop quarters Shapely.rectangle Shapely.box Shapely.overlaps
                4 tile_10_10 (Scalar 5) 1 far_point 5%Z 0%Z O = OutOfFuel.
Proof. vm_compute. reflexivity. Qed.

Example run_within_full_extent :
  sampling_loop halves Shapely.rectangle Shapely.box Shapely.within
                3 tile_10_10 (Scalar 5) 1 (full_extent tile_10_10) 3%Z 0%Z O =
  Ok ((mkBoundingBox (5 # 2) (15 # 2) (5 # 2) (15 # 2) 0 1, 1%Z), 2%nat).
Proof. vm_compute. reflexivity. Qed.

Example run_overlaps_partial_footprint :
  Shapely.overlaps (Shapely.box 0 0 5 5) (Shapely.box 3 3 20 20) = true /\
  Shapely.overlaps (Shapely.box 0 0 5 5) (Shapely.box 0 0 10 10) = false /\
  Shapely.within (Shapely.box 0 0 5 5) (Shapely.box 0 0 10 10) = true /\
  Shapely.overlaps (Shapely.box 0 0 10 10) (Shapely.box 0 0 10 10) = false.
Proof. vm_compute. repeat split. Qed.

Example run_default_budget :
  budget default_max_retries = 50000%Z /\ budget 0 = 1%Z /\ budget (-7) = 1%Z.
Proof. repeat split. Qed.

(** * Further properties of the samplers *)

Lemma loop_raises
    (uniform : nat -> Q) (Polygon : Type)
    (shapely_box : Q -> Q -> Q -> Q -> Polygon)
    (spatial_operator : Polygon -> Polygon -> bool)
    (fuel : nat) (bounds : BoundingBox) (size : size_spec) (res : Q)
    (valid_footprint : Polygon) (max_retries retries : Z) (st : rng)
    (e : exn) :
  get_random_bounding_box uniform bounds size res st = Raise e ->
  sampling_loop uniform Polygon shapely_box spatial_operator (S fuel)
                bounds size res valid_footprint max_retries retries st
  = Raise e.
Proof.
  intro H. simpl. unfold bind at 1. now rewrite H.
Qed.

Lemma wrapper_raises
    (uniform : nat -> Q) (Polygon : Type)
    (shapely_box : Q -> Q -> Q -> Q -> Polygon)
    (spatial_operator : Polygon -> Polygon -> bool)
    (fuel : nat) (bounds : BoundingBox) (size : size_spec) (res : Q)
    (valid_footprint : Polygon) (max_retries : Z) (st : rng) (e : exn) :
  sampling_loop uniform Polygon shapely_box spatial_operator fuel
                bounds size res valid_footprint max_retries 0%Z st
  = Raise e ->
  get_random_bounding_box_check_valid_overlap
    uniform Polygon shapely_box spatial_operator fuel
    bounds size res valid_footprint max_retries st = Raise e.
Proof.
  intro H. unfold get_random_bounding_box_check_valid_overlap, bind.
  now rewrite H.
Qed.

(** X1.  A resolution of zero makes the random box sampler raise
    [ZeroDivisionError], whatever the bounds and the size; the constrained
    sampler does not retry on it: its first iteration raises the same error
    for every relation and every retry budget. *)
Theorem zero_resolution_raises
    (uniform : nat -> Q) (Polygon : Type)
    (shapely_box : Q -> Q -> Q -> Q -> Polygon)
    (spatial_operator : Polygon -> Polygon -> bool)
    (bounds : BoundingBox) (size : size_spec) (res : Q)
    (valid_footprint : Polygon) (max_retries : Z) (fuel : nat) (st : rng) :
  res == 0 ->
  (1 <= fuel)%nat ->
  get_random_bounding_box uniform bounds size res st
  = Raise ZeroDivisionError /\
  get_random_bounding_box_check_valid_overlap
    uniform Polygon shapely_box spatial_operator fuel
    bounds size res valid_footprint max_retries st
  = Raise ZeroDivisionError.
Proof.
  intros Hres Hfuel.
  pose proof (get_random_bounding_box_zero_res uniform bounds size res st
                Hres) as Hd.
  split; [exact Hd |].
  destruct fuel as [| fuel]; [lia |].
  apply wrapper_raises. now apply loop_raises.
Qed.

Lemma zero_resolution_raises_witness :
  0 == 0 /\
  (1 <= 3)%nat /\
  get_random_bounding_box quarters tile_10_10 (Scalar 5) 0 O
  = Raise ZeroDivisionError /\
  get_random_bounding_box_check_valid_overlap
    quarters Shapely.rectangle Shapely.box Shapely.within 3
    tile_10_10 (Scalar 5) 0 (full_extent tile_10_10) 50%Z O
  = Raise ZeroDivisionError.
Proof.
  assert (H1 : 0 == 0) by reflexivity.
  assert (H2 : (1 <= 3)%nat) by lia.
  split; [exact H1 |]. split; [exact H2 |].
  exact (zero_resolution_raises quarters Shapely.rectangle Shapely.box
           Shapely.within tile_10_10 (Scalar 5) 0 (full_extent tile_10_10)
           50%Z 3%nat O H1 H2).
Defined.

(** X6.  The constrained sampler returns the first candidate, in the order
    of the draws, for which the relation holds, as long as one comes before
    the budget is used up: every candidate drawn before the returned one was
    rejected by the relation, and a box returned with the counter below
    [max_retries] satisfies the relation. *)
Theorem constrained_sampler_first_match
    (uniform : nat -> Q) (Polygon : Type)
    (shapely_box : Q -> Q -> Q -> Q -> Polygon)
    (spatial_operator : Polygon -> Polygon -> bool)
    (bounds : BoundingBox) (size : size_spec) (res : Q)
    (valid_footprint : Polygon) (max_retries : Z) (fuel : nat) (st : rng) :
  ~ res == 0 ->
  (Z.to_nat (budget max_retries) <= fuel)%nat ->
  exists (k : nat) (b : BoundingBox) (st' : rng),
    sampling_loop uniform Polygon shapely_box spatial_operator fuel
                  bounds size res valid_footprint max_retries 0%Z st =
    Ok ((b, (1 + Z.of_nat k)%Z), st') /\
    nth_candidate uniform k bounds size res st = Ok (b, st') /\
    ((1 + Z.of_nat k < max_retries)%Z ->
     spatial_operator (candidate_polygon shapely_box b) valid_footprint
     = true) /\
    (forall j : nat, (j < k)%nat ->
       exists (bj : BoundingBox) (stj : rng),
         nth_candidate uniform j bounds size res st = Ok (bj, stj) /\
         spatial_operator (candidate_polygon shapely_box bj) valid_footprint
         = false).
Proof.
  intros Hres Hfuel. unfold budget in Hfuel.
  destruct (loop_returns uniform Polygon shapely_box spatial_operator
              bounds size res valid_footprint max_retries Hres fuel 0%Z st)
    as (k & b & st' & Hl & Hn & _ & Ha & He).
  { rewrite Z.sub_0_r. exact Hfuel. }
  change (0 + 1)%Z with 1%Z in *.
  exists k, b, st'.
  split; [exact Hl |]. split; [exact Hn |]. split.
  - intro Hlt. destruct Ha as [Ha | Ha]; [exact Ha | lia].
  - intros j Hj. exact (proj2 (He j Hj)).
Qed.

Lemma constrained_sampler_first_match_witness :
  ~ 1 == 0 /\
  (Z.to_nat (budget 50) <= 50)%nat /\
  exists (k : nat) (b : BoundingBox) (st' : rng),
    sampling_loop quarters Shapely.rectangle Shapely.box Shapely.overlaps
                  50 tile_10_10 (Scalar 5) 1 (Shapely.box 7 8 20 20) 50%Z
                  0%Z O = Ok ((b, (1 + Z.of_nat k)%Z), st') /\
    nth_candidate quarters k tile_10_10 (Scalar 5) 1 O = Ok (b, st').
Proof.
  assert (H1 : ~ 1 == 0) by discriminate.
  assert (H2 : (Z.to_nat (budget 50) <= 50)%nat) by (vm_compute; lia).
  split; [exact H1 |]. split; [exact H2 |].
  destruct (constrained_sampler_first_match
              quarters Shapely.rectangle Shapely.box Shapely.overlaps
              tile_10_10 (Scalar 5) 1 (Shapely.box 7 8 20 20) 50%Z 50%nat O
              H1 H2)
    as (k & b & st' & Hl & Hn & _).
  exists k, b, st'. split; [exact Hl | exact Hn].
Defined.

(** X7.  With [max_retries] at most 1 the constrained sampler is the random
    box sampler: for every relation and footprint it has the outcome of one
    call of [get_random_bounding_box], the box and the state of the random
    source, or the error when the resolution is zero. *)
Theorem single_retry_is_unconstrained
    (uniform : nat -> Q) (Polygon : Type)
    (shapely_box : Q -> Q -> Q -> Q -> Polygon)
    (spatial_operator : Polygon -> Polygon -> bool)
    (bounds : BoundingBox) (size : size_spec) (res : Q)
    (valid_footprint : Polygon) (max_retries : Z) (fuel : nat) (st : rng) :
  (max_retries <= 1)%Z ->
  (1 <= fuel)%nat ->
  get_random_bounding_box_check_valid_overlap
    uniform Polygon shapely_box spatial_operator fuel
    bounds size res valid_footprint max_retries st
  = get_random_bounding_box uniform bounds size res st.
Proof.
  intros Hmax Hfuel.
  destruct fuel as [| fuel]; [lia |].
  destruct (Qeq_dec res 0) as [Hz | Hnz].
  - rewrite (get_random_bounding_box_zero_res uniform bounds size res st Hz).
    apply wrapper_raises. apply loop_raises.
    exact (get_random_bounding_box_zero_res uniform bounds size res st Hz).
  - pose proof (get_random_bounding_box_run uniform bounds size res st Hnz)
      as Hd.
    cbv zeta in Hd. rewrite Hd.
    apply wrapper_of_loop with (n := 1%Z).
    apply (loop_accepts uniform Polygon shapely_box spatial_operator
             bounds size res valid_footprint max_retries fuel 0%Z
             st _ _ Hd).
    change (0 + 1)%Z with 1%Z.
    assert (Hge : (1 >=? max_retries)%Z = true)
      by (rewrite Z.geb_leb; apply Z.leb_le; lia).
    rewrite Hge. apply orb_true_r.
Qed.

Lemma single_retry_is_unconstrained_witness :
  (1 <= 1)%Z /\
  (1 <= 2)%nat /\
  get_random_bounding_box_check_valid_overlap
    quarters Shapely.rectangle Shapely.box Shapely.overlaps 2
    tile_10_10 (Scalar 5) 1 far_point 1%Z O
  = get_random_bounding_box quarters tile_10_10 (Scalar 5) 1 O.
Proof.
  assert (H1 : (1 <= 1)%Z) by lia.
  assert (H2 : (1 <= 2)%nat) by lia.
  split; [exact H1 |]. split; [exact H2 |].
  exact (single_retry_is_unconstrained
           quarters Shapely.rectangle Shapely.box Shapely.overlaps
           tile_10_10 (Scalar 5) 1 far_point 1%Z 2%nat O H1 H2).
Defined.

(** * Further properties of the grid tiler *)

Lemma tile_to_chips_inv (bounds : BoundingBox) (size : Q * Q)
    (stride : option (Q * Q)) (rows cols : Z) :
  tile_to_chips bounds size stride = Ok (rows, cols) ->
  0 < fst (stride_or_size size stride) /\
  0 < snd (stride_or_size size stride) /\
  rows = chips_along (maxy bounds - miny bounds) (fst size)
                     (fst (stride_or_size size stride)) /\
  cols = chips_along (maxx bounds - minx bounds) (snd size)
                     (snd (stride_or_size size stride)).
Proof.
  intro H.
  destruct (Qlt_le_dec 0 (fst (stride_or_size size stride))) as [Hh | Hh];
    [| rewrite (tile_to_chips_assert bounds size stride (or_introl Hh)) in H;
       discriminate H].
  destruct (Qlt_le_dec 0 (snd (stride_or_size size stride))) as [Hw | Hw];
    [| rewrite (tile_to_chips_assert bounds size stride (or_intror Hw)) in H;
       discriminate H].
  rewrite (tile_to_chips_run bounds size stride Hh Hw) in H.
  injection H as <- <-. repeat split; assumption.
Qed.

Lemma steps_le (m n : Z) (s : Q) :
  0 < s -> (m <= n)%Z -> inject_Z m * s <= inject_Z n * s.
Proof.
  intros Hs Hmn. apply Qmult_le_compat_r; [| now apply Qlt_le_weak].
  now rewrite <- Zle_Qle.
Qed.

Lemma nonneg_steps (n : Z) (s : Q) :
  0 < s -> 0 <= inject_Z n * s -> (0 <= n)%Z.
Proof.
  intros Hs Hn. destruct (Z_lt_le_dec n 0) as [H | H]; [| exact H].
  exfalso.
  assert (Hm : inject_Z n * s <= inject_Z (-1) * s)
    by (apply steps_le; [exact Hs | lia]).
  change (inject_Z (-1)) with (- (1)) in Hm. lra.
Qed.

Lemma chips_along_stride_le (e k s1 s2 : Q) :
  0 < s1 -> s1 <= s2 -> k <= e ->
  (chips_along e k s2 <= chips_along e k s1)%Z.
Proof.
  intros Hs1 Hs Hk.
  assert (Hs2 : 0 < s2) by (eapply Qlt_le_trans; eassumption).
  destruct (chips_along_least e k s1 Hs1) as [_ L1].
  destruct (chips_along_least e k s2 Hs2) as [L2 _].
  set (n1 := chips_along e k s1) in *.
  set (n2 := chips_along e k s2) in *.
  assert (Hn1 : (0 <= n1 - 1)%Z) by (apply (nonneg_steps _ s1 Hs1); lra).
  destruct (Z_le_gt_dec n2 n1) as [H | H]; [exact H |].
  exfalso.
  assert (Ha : inject_Z (n1 - 1) * s2 <= inject_Z (n2 - 2) * s2)
    by (apply steps_le; [exact Hs2 | lia]).
  assert (Hb : inject_Z (n1 - 1) * s1 <= inject_Z (n1 - 1) * s2).
  { rewrite (Qmult_comm _ s1), (Qmult_comm _ s2).
    apply Qmult_le_compat_r; [exact Hs |].
    change 0 with (inject_Z 0). now rewrite <- Zle_Qle. }
  lra.
Qed.



(** * The package file [transforms/__init__.py] *)

Lemma set_module_same (h : Transforms.heap) (o : Transforms.object_id)
    (value : string) :
  Transforms.set_module h o value o = value.
Proof.
  unfold Transforms.set_module. now rewrite Nat.eqb_refl.
Qed.

Lemma set_module_other (h : Transforms.heap) (o o' : Transforms.object_id)
    (value : string) :
  o' <> o -> Transforms.set_module h o value o' = h o'.
Proof.
  intro H. unfold Transforms.set_module.
  apply Nat.eqb_neq in H. now rewrite H.
Qed.

(** The loop only ever assigns the package name. *)
Lemma set_modules_keeps_package (names : list string) :
  forall (globals : Transforms.namespace) (h : Transforms.heap)
         (o : Transforms.object_id),
    h o = Transforms.package ->
    fst (Transforms.set_modules names globals h) o = Transforms.package.
Proof.
  induction names as [| name rest IH]; intros globals h o Ho.
  - exact Ho.
  - simpl. destruct (Transforms.lookup name globals) as [o' |];
      [| exact Ho].
    apply IH. destruct (Nat.eq_dec o o') as [-> | Hne].
    + apply set_module_same.
    + now rewrite set_module_other.
Qed.

Lemma set_modules_bound (names : list string) :
  forall (globals : Transforms.namespace) (h : Transforms.heap),
    (forall name, In name names ->
       Transforms.lookup name globals <> None) ->
    snd (Transforms.set_modules names globals h) = None /\
    (forall name o, In name names ->
       Transforms.lookup name globals = Some o ->
       fst (Transforms.set_modules names globals h) o
       = Transforms.package) /\
    (forall o,
       (forall name, In name names ->
          Transforms.lookup name globals <> Some o) ->
       fst (Transforms.set_modules names globals h) o = h o).
Proof.
  induction names as [| name rest IH]; intros globals h Hbound.
  - simpl. split; [reflexivity |]. split; [intros ? ? [] | reflexivity].
  - simpl.
    destruct (Transforms.lookup name globals) as [o' |] eqn:El;
      [| exfalso; apply (Hbound name); [now left | exact El]].
    destruct (IH globals (Transforms.set_module h o' Transforms.package))
      as (Hnone & Hset & Hrest).
    { intros n Hn. apply Hbound. now right. }
    split; [exact Hnone |]. split.
    + intros n o [<- | Hn] Hl.
      * rewrite El in Hl. injection Hl as <-.
        apply set_modules_keeps_package. apply set_module_same.
      * exact (Hset n o Hn Hl).
    + intros o Hfree. rewrite Hrest.
      * apply set_module_other. intros ->.
        apply (Hfree name); [now left | exact El].
      * intros n Hn. apply Hfree. now right.
Qed.

Lemma exported_names_imported (name : string) :
  In name Transforms.__all__ -> In name Transforms.imported.
Proof.
  unfold Transforms.__all__, Transforms.imported. simpl.
  intros [<- | [<- | [<- | [<- | [<- | [<- | [<- | [<- | [<- | []]]]]]]]]];
    tauto.
Qed.

(** X16.  In a namespace that binds the imported names, the loop of the
    package file ends without a [KeyError]; afterwards the object of every
    name of [__all__] has [__module__] equal to the package name
    torchgeo.transforms, under whatever name that object is reached, and
    every object that no name of [__all__] is bound to keeps its
    [__module__]. *)
Theorem exported_classes_retagged
    (globals : Transforms.namespace) (h : Transforms.heap) :
  Transforms.imports_done globals ->
  snd (Transforms.set_modules Transforms.__all__ globals h) = None /\
  (forall name o, In name Transforms.__all__ ->
     Transforms.lookup name globals = Some o ->
     fst (Transforms.set_modules Transforms.__all__ globals h) o
     = "torchgeo.transforms"%string) /\
  (forall o,
     (forall name, In name Transforms.__all__ ->
        Transforms.lookup name globals <> Some o) ->
     fst (Transforms.set_modules Transforms.__all__ globals h) o = h o).
Proof.
  intro Hdone.
  apply set_modules_bound.
  intros name Hin. apply Hdone. now apply exported_names_imported.
Qed.

Lemma imports_done_after_imports : Transforms.imports_done after_imports.
Proof.
  intros name Hin. unfold Transforms.imported in Hin. simpl in Hin.
  destruct Hin
    as [<- | [<- | [<- | [<- | [<- | [<- | [<- | [<- | [<- | []]]]]]]]]];
    vm_compute; discriminate.
Qed.

Lemma exported_classes_retagged_witness :
  Transforms.imports_done after_imports /\
  snd (Transforms.set_modules Transforms.__all__ after_imports
                              defining_modules) = None /\
  fst (Transforms.set_modules Transforms.__all__ after_imports
                              defining_modules) 8%nat
  = "torchgeo.transforms"%string.
Proof.
  assert (H1 : Transforms.imports_done after_imports)
    by exact imports_done_after_imports.
  split; [exact H1 |].
  destruct (exported_classes_retagged after_imports defining_modules H1)
    as (Hnone & Hset & _).
  split; [exact Hnone |].
  apply (Hset "AugmentationSequential"%string 8%nat).
  - vm_compute. tauto.
  - vm_compute. reflexivity.
Defined.

(** X17.  When a name of [__all__] is not bound in the namespace, the loop
    stops with [KeyError] for the first such name in the order of
    [__all__]; the objects of the names before it have been assigned the
    package name by then, and the objects of no earlier name are
    untouched. *)
Theorem unbound_export_raises_key_error
    (globals : Transforms.namespace) (h : Transforms.heap)
    (before after : list string) (missing : string) :
  Transforms.__all__ = before ++ missing :: after ->
  (forall name, In name before ->
     Transforms.lookup name globals <> None) ->
  Transforms.lookup missing globals = None ->
  snd (Transforms.set_modules Transforms.__all__ globals h)
  = Some (Transforms.KeyError missing) /\
  (forall name o, In name before ->
     Transforms.lookup name globals = Some o ->
     fst (Transforms.set_modules Transforms.__all__ globals h) o
     = "torchgeo.transforms"%string) /\
  (forall o,
     (forall name, In name before ->
        Transforms.lookup name globals <> Some o) ->
     fst (Transforms.set_modules Transforms.__all__ globals h) o = h o).
Proof.
  intros Hsplit Hbound Hmiss. rewrite Hsplit. clear Hsplit.
  revert h Hbound.
  induction before as [| name rest IH]; intros h Hbound.
  - simpl. rewrite Hmiss. simpl.
    split; [reflexivity |]. split; [intros ? ? [] | reflexivity].
  - simpl.
    destruct (Transforms.lookup name globals) as [o' |] eqn:El;
      [| exfalso; apply (Hbound name); [now left | exact El]].
    destruct (IH (Transforms.set_module h o' Transforms.package))
      as (Herr & Hset & Hrest).
    { intros n Hn. apply Hbound. now right. }
    split; [exact Herr |]. split.
    + intros n o [<- | Hn] Hl.
      * rewrite El in Hl. injection Hl as <-.
        apply set_modules_keeps_package. apply set_module_same.
      * exact (Hset n o Hn Hl).
    + intros o Hfree. rewrite Hrest.
      * apply set_module_other. intros ->.
        apply (Hfree name); [now left | exact El].
      * intros n Hn. apply Hfree. now right.
Qed.

Lemma unbound_export_raises_key_error_witness :
  Transforms.__all__
  = ["AppendNormalizedDifferenceIndex"; "AppendGNDVI"]%string
    ++ "AppendNBR"%string
       :: ["AppendNDBI"; "AppendNDSI"; "AppendNDVI"; "AppendNDWI";
           "AppendSWI"; "AugmentationSequential"]%string /\
  Transforms.lookup "AppendNBR"
    [("AppendGNDVI", 0%nat); ("AppendNormalizedDifferenceIndex", 6%nat)]%string
  = None /\
  snd (Transforms.set_modules Transforms.__all__
         [("AppendGNDVI", 0%nat);
          ("AppendNormalizedDifferenceIndex", 6%nat)]%string
         defining_modules)
  = Some (Transforms.KeyError "AppendNBR").
Proof.
  assert (H1 : Transforms.__all__
               = ["AppendNormalizedDifferenceIndex"; "AppendGNDVI"]%string
                 ++ "AppendNBR"%string
                    :: ["AppendNDBI"; "AppendNDSI"; "AppendNDVI";
                        "AppendNDWI"; "AppendSWI";
                        "AugmentationSequential"]%string) by reflexivity.
  assert (H3 : Transforms.lookup "AppendNBR"
                 [("AppendGNDVI", 0%nat);
                  ("AppendNormalizedDifferenceIndex", 6%nat)]%string
               = None) by reflexivity.
  split; [exact H1 |]. split; [exact H3 |].
  refine (proj1 (unbound_export_raises_key_error _ defining_modules
                   _ _ _ H1 _ H3)).
  intros name [<- | [<- | []]]; vm_compute; discriminate.
Defined.

(** * The relation [within] as the predicate *)

(** X19.  With shapely's [within] as the relation and a rectangle as the
    footprint, a box the constrained sampler returns before the budget is
    used up lies in the footprint: each of its points is a point of the
    footprint. *)
Theorem within_footprint_unless_exhausted
    (uniform : nat -> Q) (bounds : BoundingBox) (size : size_spec) (res : Q)
    (valid_footprint : Shapely.rectangle) (max_retries : Z) (fuel : nat)
    (st : rng) :
  ~ res == 0 ->
  (Z.to_nat (budget max_retries) <= fuel)%nat ->
  exists (b : BoundingBox) (retries : Z) (st' : rng),
    sampling_loop uniform Shapely.rectangle Shapely.box Shapely.within fuel
                  bounds size res valid_footprint max_retries 0%Z st
    = Ok ((b, retries), st') /\
    ((retries < max_retries)%Z ->
     forall p : Shapely.point,
       Shapely.inside (candidate_polygon Shapely.box b) p ->
       Shapely.inside valid_footprint p).
Proof.
  intros Hres Hfuel. unfold budget in Hfuel.
  destruct (loop_returns uniform Shapely.rectangle Shapely.box Shapely.within
              bounds size res valid_footprint max_retries Hres fuel 0%Z st)
    as (k & b & st' & Hl & _ & _ & Ha & _).
  { rewrite Z.sub_0_r. exact Hfuel. }
  exists b, (0 + 1 + Z.of_nat k)%Z, st'.
  split; [exact Hl |].
  intros Hlt. destruct Ha as [Ha | Ha]; [| lia].
  apply rect_within_spec in Ha. exact (proj1 Ha).
Qed.

Lemma within_footprint_unless_exhausted_witness :
  ~ 1 == 0 /\
  (Z.to_nat (budget 9) <= 9)%nat /\
  sampling_loop quarters Shapely.rectangle Shapely.box Shapely.within 9
                tile_10_10 (Scalar 5) 1 (Shapely.box 2 3 8 9) 9%Z 0%Z O
  = Ok ((mkBoundingBox (10 # 4) (30 # 4) (15 # 4) (35 # 4) 0 1, 2%Z),
        4%nat) /\
  forall p : Shapely.point,
    Shapely.inside
      (candidate_polygon Shapely.box
         (mkBoundingBox (10 # 4) (30 # 4) (15 # 4) (35 # 4) 0 1)) p ->
    Shapely.inside (Shapely.box 2 3 8 9) p.
Proof.
  assert (H1 : ~ 1 == 0) by discriminate.
  assert (H2 : (Z.to_nat (budget 9) <= 9)%nat) by (vm_compute; lia).
  assert (H3 : sampling_loop quarters Shapely.rectangle Shapely.box
                 Shapely.within 9 tile_10_10 (Scalar 5) 1
                 (Shapely.box 2 3 8 9) 9%Z 0%Z O
               = Ok ((mkBoundingBox (10 # 4) (30 # 4) (15 # 4) (35 # 4) 0 1,
                      2%Z), 4%nat)) by (vm_compute; reflexivity).
  split; [exact H1 |]. split; [exact H2 |]. split; [exact H3 |].
  destruct (within_footprint_unless_exhausted
              quarters tile_10_10 (Scalar 5) 1 (Shapely.box 2 3 8 9) 9%Z
              9%nat O H1 H2)
    as (b & retries & st' & Hl & Hin).
  rewrite H3 in Hl. injection Hl as <- <- <-.
  apply Hin. lia.
Defined.

(** * Properties in binary64 arithmetic *)

(** ** The operators *)

Lemma b64_gt_zero_not_zero (x : Binary64.float) :
  Binary64.gt x Binary64.zero = true -> Binary64.eqb x Binary64.zero = false.
Proof.
  destruct x as [s | s | | s m e]; cbn; try discriminate;
    destruct s; cbn; intros; try discriminate; reflexivity.
Qed.

Lemma b64_truediv_ok (a b : Binary64.float) :
  Binary64.eqb b Binary64.zero = false ->
  Binary64.truediv a b = Binary64.Ok (Binary64.div a b).
Proof.
  intro H. unfold Binary64.truediv. now rewrite H.
Qed.

Lemma b64_floordiv_ok (a b : Binary64.float) :
  Binary64.eqb b Binary64.zero = false ->
  Binary64.floordiv a b = Binary64.Ok (Binary64.floordiv_value a b).
Proof.
  intro H. unfold Binary64.floordiv. now rewrite H.
Qed.

Lemma b64_to_Q_nonneg_exponent (s : bool) (m : positive) (e : Z) :
  (0 <= e)%Z ->
  Binary64.to_Q (S754_finite s m e)
  == inject_Z (cond_Zopp s (Zpos m * 2 ^ e)).
Proof.
  intro He. unfold Binary64.to_Q.
  assert (Hp : Qpower 2 e == inject_Z (2 ^ e)).
  { symmetry. exact (Zpower_Qpower 2 e He). }
  rewrite Hp. rewrite <- inject_Z_mult.
  destruct s; cbn [cond_Zopp]; [| reflexivity].
  now rewrite Z.mul_opp_l.
Qed.

Lemma b64_to_Q_neg_exponent (s : bool) (m : positive) (e : Z) :
  (e < 0)%Z ->
  Binary64.to_Q (S754_finite s m e)
  == Qmake (cond_Zopp s (Zpos m)) (Z.to_pos (2 ^ (- e))).
Proof.
  intro He. unfold Binary64.to_Q.
  assert (Hpos : (0 < 2 ^ (- e))%Z) by (apply Z.pow_pos_nonneg; lia).
  assert (Hp : Qpower 2 e == / inject_Z (2 ^ (- e))).
  { replace e with (- - e)%Z at 1 by lia.
    rewrite Qpower_opp. apply Qinv_comp.
    symmetry. apply (Zpower_Qpower 2 (- e)). lia. }
  rewrite Hp.
  unfold Qeq, Qmult, Qinv, inject_Z. cbn [Qnum Qden].
  destruct (2 ^ (- e))%Z as [| p | p] eqn:E; try lia.
  cbn. now rewrite Z.mul_1_r.
Qed.

Lemma b64_math_ceil_finite (x : Binary64.float) :
  Binary64.is_finite x = true ->
  Binary64.math_ceil x = Binary64.Ok (Qceiling (Binary64.to_Q x)).
Proof.
  destruct x as [s | s | | s m e]; cbn [Binary64.is_finite];
    try discriminate; intros _.
  - reflexivity.
  - cbn [Binary64.math_ceil]. f_equal.
    destruct (0 <=? e)%Z eqn:E.
    + apply Z.leb_le in E.
      rewrite (Qceiling_comp _ _ (b64_to_Q_nonneg_exponent s m e E)).
      now rewrite Qceiling_Z.
    + apply Z.leb_gt in E.
      rewrite (Qceiling_comp _ _ (b64_to_Q_neg_exponent s m e E)).
      assert (Hpos : (0 < 2 ^ (- e))%Z) by (apply Z.pow_pos_nonneg; lia).
      unfold Qceiling, Qfloor, Qopp. cbn [Qnum Qden].
      rewrite Z2Pos.id by exact Hpos. reflexivity.
Qed.

(** ** The grid tiler in binary64 *)

(** What [tile_to_chips] does once both assertions have passed. *)
Lemma b64_tile_to_chips_positive
    (bounds : Binary64.BoundingBox) (size : Binary64.float * Binary64.float)
    (stride : option (Binary64.float * Binary64.float)) :
  Binary64.gt (fst (Binary64.stride_or_size size stride)) Binary64.zero
  = true ->
  Binary64.gt (snd (Binary64.stride_or_size size stride)) Binary64.zero
  = true ->
  Binary64.tile_to_chips bounds size stride =
  Binary64.bindR
    (Binary64.math_ceil
       (Binary64.quotient_y bounds size
          (Binary64.stride_or_size size stride)))
    (fun cr =>
       Binary64.bindR
         (Binary64.math_ceil
            (Binary64.quotient_x bounds size
               (Binary64.stride_or_size size stride)))
         (fun cc => Binary64.Ok ((cr + 1)%Z, (cc + 1)%Z))).
Proof.
  intros Hh Hw. unfold Binary64.tile_to_chips.
  change (match stride with None => size | Some s => s end)
    with (Binary64.stride_or_size size stride).
  set (s := Binary64.stride_or_size size stride) in *.
  rewrite Hh, Hw. cbn [Binary64.py_assert Binary64.bindR].
  rewrite (b64_truediv_ok _ (fst s) (b64_gt_zero_not_zero _ Hh)).
  cbn [Binary64.bindR]. unfold Binary64.quotient_y.
  destruct (Binary64.math_ceil
              (Binary64.div
                 (Binary64.sub
                    (Binary64.sub (Binary64.maxy bounds)
                                  (Binary64.miny bounds)) (fst size))
                 (fst s))) as [cr | e |]; cbn [Binary64.bindR];
    try reflexivity.
  rewrite (b64_truediv_ok _ (snd s) (b64_gt_zero_not_zero _ Hw)).
  reflexivity.
Qed.

Lemma b64_tile_to_chips_assert
    (bounds : Binary64.BoundingBox) (size : Binary64.float * Binary64.float)
    (stride : option (Binary64.float * Binary64.float)) :
  Binary64.gt (fst (Binary64.stride_or_size size stride)) Binary64.zero
  = false \/
  Binary64.gt (snd (Binary64.stride_or_size size stride)) Binary64.zero
  = false ->
  Binary64.tile_to_chips bounds size stride
  = Binary64.Raise Binary64.AssertionError.
Proof.
  intro H. unfold Binary64.tile_to_chips.
  change (match stride with None => size | Some s => s end)
    with (Binary64.stride_or_size size stride).
  set (s := Binary64.stride_or_size size stride) in *.
  destruct (Binary64.gt (fst s) Binary64.zero) eqn:Bh; [| reflexivity].
  destruct H as [H | H]; [discriminate H |].
  rewrite H. reflexivity.
Qed.

Lemma b64_math_ceil_not_finite (x : Binary64.float) :
  Binary64.is_finite x = false ->
  Binary64.math_ceil x = Binary64.Raise Binary64.OverflowError \/
  Binary64.math_ceil x = Binary64.Raise Binary64.ValueError.
Proof.
  destruct x; cbn; intro H; try discriminate H; tauto.
Qed.

(** C3, as the code has it.  For a stride with positive components (the
    size when no stride is given) and finite quotients, [tile_to_chips]
    returns [rows = ceil qy + 1] and [cols = ceil qx + 1], where [qy] and
    [qx] are the binary64 values of [(maxy - miny - height) / stride_height]
    and [(maxx - minx - width) / stride_width], each subtraction and the
    division rounded; these are the counts of the formula in exact
    arithmetic whenever the quotients carry no rounding error.  On the tile
    [0,10]x[0,10] with size (5,5) and stride (5,5) it returns (2, 2); on the
    tile [0,12]x[0,10] with size (5,5) and no stride, (2, 3). *)
Theorem b64_tile_to_chips_formula :
  (forall (bounds : Binary64.BoundingBox)
          (size : Binary64.float * Binary64.float)
          (stride : option (Binary64.float * Binary64.float)),
     let s := Binary64.stride_or_size size stride in
     let qy := Binary64.quotient_y bounds size s in
     let qx := Binary64.quotient_x bounds size s in
     Binary64.gt (fst s) Binary64.zero = true ->
     Binary64.gt (snd s) Binary64.zero = true ->
     Binary64.is_finite qy = true ->
     Binary64.is_finite qx = true ->
     Binary64.tile_to_chips bounds size stride
     = Binary64.Ok ((Qceiling (Binary64.to_Q qy) + 1)%Z,
                    (Qceiling (Binary64.to_Q qx) + 1)%Z) /\
     (Binary64.to_Q qy
      == (Binary64.to_Q (Binary64.maxy bounds)
          - Binary64.to_Q (Binary64.miny bounds)
          - Binary64.to_Q (fst size)) / Binary64.to_Q (fst s) ->
      Binary64.to_Q qx
      == (Binary64.to_Q (Binary64.maxx bounds)
          - Binary64.to_Q (Binary64.minx bounds)
          - Binary64.to_Q (snd size)) / Binary64.to_Q (snd s) ->
      Binary64.tile_to_chips bounds size stride
      = Binary64.Ok
          ((Qceiling ((Binary64.to_Q (Binary64.maxy bounds)
                       - Binary64.to_Q (Binary64.miny bounds)
                       - Binary64.to_Q (fst size))
                      / Binary64.to_Q (fst s)) + 1)%Z,
           (Qceiling ((Binary64.to_Q (Binary64.maxx bounds)
                       - Binary64.to_Q (Binary64.minx bounds)
                       - Binary64.to_Q (snd size))
                      / Binary64.to_Q (snd s)) + 1)%Z))) /\
  (forall size : Binary64.float * Binary64.float,
     Binary64.stride_or_size size None = size) /\
  Binary64.tile_to_chips b64_tile_10_10
    (Binary64.of_Z 5, Binary64.of_Z 5)
    (Some (Binary64.of_Z 5, Binary64.of_Z 5)) = Binary64.Ok (2%Z, 2%Z) /\
  Binary64.tile_to_chips b64_tile_12_10
    (Binary64.of_Z 5, Binary64.of_Z 5) None = Binary64.Ok (2%Z, 3%Z).
Proof.
  split; [| split; [| split]].
  - intros bounds size stride s qy qx Hh Hw Fy Fx.
    assert (Hrun : Binary64.tile_to_chips bounds size stride
                   = Binary64.Ok ((Qceiling (Binary64.to_Q qy) + 1)%Z,
                                  (Qceiling (Binary64.to_Q qx) + 1)%Z)).
    { rewrite (b64_tile_to_chips_positive bounds size stride Hh Hw).
      fold s. fold qy qx.
      rewrite (b64_math_ceil_finite qy Fy). cbn [Binary64.bindR].
      rewrite (b64_math_ceil_finite qx Fx). reflexivity. }
    split; [exact Hrun |].
    intros Ey Ex. rewrite Hrun.
    now rewrite (Qceiling_comp _ _ Ey), (Qceiling_comp _ _ Ex).
  - reflexivity.
  - vm_compute. reflexivity.
  - vm_compute. reflexivity.
Qed.

Lemma b64_tile_to_chips_formula_witness :
  Binary64.gt (Binary64.ratio 3 10) Binary64.zero = true /\
  Binary64.is_finite
    (Binary64.quotient_y b64_tile_24
       (Binary64.ratio 3 10, Binary64.ratio 3 10)
       (Binary64.ratio 3 10, Binary64.ratio 3 10)) = true /\
  Binary64.tile_to_chips b64_tile_24
    (Binary64.ratio 3 10, Binary64.ratio 3 10) None
  = Binary64.Ok (9%Z, 9%Z).
Proof.
  assert (H1 : Binary64.gt (Binary64.ratio 3 10) Binary64.zero = true)
    by (vm_compute; reflexivity).
  assert (H2 : Binary64.is_finite
                 (Binary64.quotient_y b64_tile_24
                    (Binary64.ratio 3 10, Binary64.ratio 3 10)
                    (Binary64.ratio 3 10, Binary64.ratio 3 10)) = true)
    by (vm_compute; reflexivity).
  assert (H3 : Binary64.is_finite
                 (Binary64.quotient_x b64_tile_24
                    (Binary64.ratio 3 10, Binary64.ratio 3 10)
                    (Binary64.ratio 3 10, Binary64.ratio 3 10)) = true)
    by (vm_compute; reflexivity).
  split; [exact H1 |]. split; [exact H2 |].
  rewrite (proj1 (proj1 b64_tile_to_chips_formula b64_tile_24
                    (Binary64.ratio 3 10, Binary64.ratio 3 10) None
                    H1 H1 H2 H3)).
  vm_compute. reflexivity.
Defined.

(** C3, as written, does not hold: on the tile [0,2.4]x[0,2.4] with size
    (0.3, 0.3) the code returns (9, 9), the formula on the same numbers
    gives (8, 8). *)
Lemma b64_chips_by_exact_formula_fails :
  Binary64.tile_to_chips b64_tile_24
    (Binary64.ratio 3 10, Binary64.ratio 3 10) None
  = Binary64.Ok (9%Z, 9%Z) /\
  (Qceiling ((Binary64.to_Q (Binary64.ratio 24 10)
              - Binary64.to_Q (Binary64.of_Z 0)
              - Binary64.to_Q (Binary64.ratio 3 10))
             / Binary64.to_Q (Binary64.ratio 3 10)) + 1 = 8)%Z /\
  ~ b64_chips_by_exact_formula.
Proof.
  assert (Hrun : Binary64.tile_to_chips b64_tile_24
                   (Binary64.ratio 3 10, Binary64.ratio 3 10) None
                 = Binary64.Ok (9%Z, 9%Z)) by (vm_compute; reflexivity).
  split; [exact Hrun |]. split; [vm_compute; reflexivity |].
  intro H.
  specialize (H b64_tile_24 (Binary64.ratio 3 10, Binary64.ratio 3 10) None).
  rewrite Hrun in H.
  assert (Hf : Binary64.Ok (9%Z, 9%Z)
               = Binary64.Ok (8%Z, 8%Z) :> Binary64.result (Z * Z)).
  { etransitivity; [apply H |]; try (vm_compute; reflexivity).
    vm_compute. repeat split. }
  discriminate Hf.
Qed.

(** C6, as the code has it.  [tile_to_chips] raises [AssertionError],
    before it computes anything, whenever the height or the width component
    of the stride is not greater than zero, as for the strides (0, 5) and
    (5, -1) and for a NaN.  For a stride with two positive components it
    raises neither that error nor [ZeroDivisionError]; it returns a pair
    when both quotients are finite, and otherwise fails in [math.ceil] with
    [OverflowError] (an infinite quotient) or [ValueError] (a NaN). *)
Theorem b64_tile_to_chips_stride_contract
    (bounds : Binary64.BoundingBox)
    (size : Binary64.float * Binary64.float) :
  (forall stride : Binary64.float * Binary64.float,
     Binary64.gt (fst stride) Binary64.zero = false \/
     Binary64.gt (snd stride) Binary64.zero = false ->
     Binary64.tile_to_chips bounds size (Some stride)
     = Binary64.Raise Binary64.AssertionError) /\
  Binary64.tile_to_chips bounds size
    (Some (Binary64.of_Z 0, Binary64.of_Z 5))
  = Binary64.Raise Binary64.AssertionError /\
  Binary64.tile_to_chips bounds size
    (Some (Binary64.of_Z 5, Binary64.of_Z (-1)))
  = Binary64.Raise Binary64.AssertionError /\
  (forall stride : Binary64.float * Binary64.float,
     Binary64.gt (fst stride) Binary64.zero = true ->
     Binary64.gt (snd stride) Binary64.zero = true ->
     Binary64.tile_to_chips bounds size (Some stride)
     <> Binary64.Raise Binary64.AssertionError /\
     Binary64.tile_to_chips bounds size (Some stride)
     <> Binary64.Raise Binary64.ZeroDivisionError /\
     (Binary64.is_finite (Binary64.quotient_y bounds size stride) = true ->
      Binary64.is_finite (Binary64.quotient_x bounds size stride) = true ->
      exists rows cols : Z,
        Binary64.tile_to_chips bounds size (Some stride)
        = Binary64.Ok (rows, cols)) /\
     (Binary64.is_finite (Binary64.quotient_y bounds size stride) = false \/
      Binary64.is_finite (Binary64.quotient_x bounds size stride) = false ->
      Binary64.tile_to_chips bounds size (Some stride)
      = Binary64.Raise Binary64.OverflowError \/
      Binary64.tile_to_chips bounds size (Some stride)
      = Binary64.Raise Binary64.ValueError)).
Proof.
  split; [| split; [| split]].
  - intros stride H. now apply b64_tile_to_chips_assert.
  - apply b64_tile_to_chips_assert. left. vm_compute. reflexivity.
  - apply b64_tile_to_chips_assert. right. vm_compute. reflexivity.
  - intros stride Hh Hw.
    rewrite (b64_tile_to_chips_positive bounds size (Some stride) Hh Hw).
    cbn [Binary64.stride_or_size].
    set (qy := Binary64.quotient_y bounds size stride).
    set (qx := Binary64.quotient_x bounds size stride).
    destruct (Binary64.is_finite qy) eqn:Fy.
    + rewrite (b64_math_ceil_finite qy Fy). cbn [Binary64.bindR].
      destruct (Binary64.is_finite qx) eqn:Fx.
      * rewrite (b64_math_ceil_finite qx Fx). cbn [Binary64.bindR].
        repeat split; try discriminate; eauto.
        intros [H | H]; discriminate H.
      * destruct (b64_math_ceil_not_finite qx Fx) as [E | E];
          rewrite E; cbn [Binary64.bindR];
          repeat split; try discriminate; tauto.
    + destruct (b64_math_ceil_not_finite qy Fy) as [E | E];
        rewrite E; cbn [Binary64.bindR];
        repeat split; try discriminate; tauto.
Qed.

Lemma b64_tile_to_chips_stride_contract_witness :
  (Binary64.gt (fst (Binary64.of_Z 0, Binary64.of_Z 5)) Binary64.zero = false
   \/ Binary64.gt (snd (Binary64.of_Z 0, Binary64.of_Z 5)) Binary64.zero
      = false) /\
  Binary64.tile_to_chips b64_tile_10_10 (Binary64.of_Z 5, Binary64.of_Z 5)
    (Some (Binary64.of_Z 0, Binary64.of_Z 5))
  = Binary64.Raise Binary64.AssertionError.
Proof.
  assert (H1 : Binary64.gt (fst (Binary64.of_Z 0, Binary64.of_Z 5))
                           Binary64.zero = false
               \/ Binary64.gt (snd (Binary64.of_Z 0, Binary64.of_Z 5))
                              Binary64.zero = false)
    by (left; vm_compute; reflexivity).
  split; [exact H1 |].
  exact (proj1 (b64_tile_to_chips_stride_contract b64_tile_10_10
                  (Binary64.of_Z 5, Binary64.of_Z 5)) _ H1).
Defined.

(** C6, as written, does not hold: with the positive stride (1e-320, 1) on
    the tile [0,10]x[0,10] and size (5, 5) the quotient 5 / 1e-320 is
    infinite and [math.ceil] raises [OverflowError]. *)
Lemma b64_positive_stride_never_fails_fails :
  Binary64.gt b64_1e_320 Binary64.zero = true /\
  Binary64.tile_to_chips b64_tile_10_10 (Binary64.of_Z 5, Binary64.of_Z 5)
    (Some (b64_1e_320, Binary64.of_Z 1))
  = Binary64.Raise Binary64.OverflowError /\
  ~ b64_positive_stride_never_fails.
Proof.
  assert (Hrun : Binary64.tile_to_chips b64_tile_10_10
                   (Binary64.of_Z 5, Binary64.of_Z 5)
                   (Some (b64_1e_320, Binary64.of_Z 1))
                 = Binary64.Raise Binary64.OverflowError)
    by (vm_compute; reflexivity).
  split; [vm_compute; reflexivity |]. split; [exact Hrun |].
  intro H.
  destruct (H b64_tile_10_10 (Binary64.of_Z 5, Binary64.of_Z 5)
              (b64_1e_320, Binary64.of_Z 1))
    as (rows & cols & Hok);
    try (vm_compute; reflexivity).
  - vm_compute. repeat split.
  - rewrite Hrun in Hok. discriminate Hok.
Qed.

(** X9.  [tile_to_chips] never raises [ZeroDivisionError]: a stride of
    zero is stopped by the assertions before the divisions.  When the
    stride is omitted the size is asserted in its place, so a size with a
    component that is not greater than zero raises [AssertionError]. *)
Theorem b64_tile_to_chips_outcomes
    (bounds : Binary64.BoundingBox) (size : Binary64.float * Binary64.float)
    (stride : option (Binary64.float * Binary64.float)) :
  Binary64.tile_to_chips bounds size stride
  <> Binary64.Raise Binary64.ZeroDivisionError /\
  (Binary64.gt (fst size) Binary64.zero = false \/
   Binary64.gt (snd size) Binary64.zero = false ->
   Binary64.tile_to_chips bounds size None
   = Binary64.Raise Binary64.AssertionError).
Proof.
  split.
  - destruct (Binary64.gt (fst (Binary64.stride_or_size size stride))
                          Binary64.zero) eqn:Hh;
      [| rewrite (b64_tile_to_chips_assert bounds size stride
                    (or_introl Hh)); discriminate].
    destruct (Binary64.gt (snd (Binary64.stride_or_size size stride))
                          Binary64.zero) eqn:Hw;
      [| rewrite (b64_tile_to_chips_assert bounds size stride
                    (or_intror Hw)); discriminate].
    rewrite (b64_tile_to_chips_positive bounds size stride Hh Hw).
    destruct (Binary64.quotient_y bounds size
                (Binary64.stride_or_size size stride));
      cbn [Binary64.math_ceil Binary64.bindR]; try discriminate;
      destruct (Binary64.quotient_x bounds size
                  (Binary64.stride_or_size size stride));
      cbn [Binary64.math_ceil Binary64.bindR]; discriminate.
  - intro H. now apply b64_tile_to_chips_assert.
Qed.

Lemma b64_tile_to_chips_outcomes_witness :
  (Binary64.gt (fst (Binary64.of_Z 0, Binary64.of_Z 5)) Binary64.zero = false
   \/ Binary64.gt (snd (Binary64.of_Z 0, Binary64.of_Z 5)) Binary64.zero
      = false) /\
  Binary64.tile_to_chips b64_tile_10_10 (Binary64.of_Z 0, Binary64.of_Z 5)
    None = Binary64.Raise Binary64.AssertionError.
Proof.
  assert (H1 : Binary64.gt (fst (Binary64.of_Z 0, Binary64.of_Z 5))
                           Binary64.zero = false
               \/ Binary64.gt (snd (Binary64.of_Z 0, Binary64.of_Z 5))
                              Binary64.zero = false)
    by (left; vm_compute; reflexivity).
  split; [exact H1 |].
  exact (proj2 (b64_tile_to_chips_outcomes b64_tile_10_10
                  (Binary64.of_Z 0, Binary64.of_Z 5) None) H1).
Defined.

(** ** The random box sampler in binary64 *)

(** With a resolution that is not zero the sampler returns, and this is
    the box and the state of the random source it returns with. *)
Lemma b64_get_random_bounding_box_run
    (uniform : nat -> Binary64.float) (bounds : Binary64.BoundingBox)
    (size : Binary64.size_spec) (res : Binary64.float) (st : rng) :
  Binary64.eqb res Binary64.zero = false ->
  let w := Binary64.slack_x bounds size res in
  let h := Binary64.slack_y bounds size res in
  let st1 := if Binary64.gt w Binary64.zero then S st else st in
  let st2 := if Binary64.gt h Binary64.zero then S st1 else st1 in
  let x := if Binary64.gt w Binary64.zero
           then Binary64.add (Binary64.minx bounds)
                  (Binary64.mul (Binary64.mul (uniform st) w) res)
           else Binary64.minx bounds in
  let y := if Binary64.gt h Binary64.zero
           then Binary64.add (Binary64.miny bounds)
                  (Binary64.mul (Binary64.mul (uniform st1) h) res)
           else Binary64.miny bounds in
  Binary64.get_random_bounding_box uniform bounds size res st =
  Binary64.Ok
    (Binary64.mkBoundingBox
       x (Binary64.add x (snd (Binary64._to_tuple size)))
       y (Binary64.add y (fst (Binary64._to_tuple size)))
       (Binary64.mint bounds) (Binary64.maxt bounds), st2).
Proof.
  intros Hres w h st1 st2 x y.
  unfold Binary64.get_random_bounding_box, Binary64.bind, Binary64.lift.
  rewrite !(b64_floordiv_ok _ res Hres).
  fold (Binary64.slack_x bounds size res) (Binary64.slack_y bounds size res).
  fold w h. subst st1 st2 x y.
  destruct (Binary64.gt w Binary64.zero), (Binary64.gt h Binary64.zero);
    reflexivity.
Qed.

Lemma b64_get_random_bounding_box_zero_res
    (uniform : nat -> Binary64.float) (bounds : Binary64.BoundingBox)
    (size : Binary64.size_spec) (res : Binary64.float) (st : rng) :
  Binary64.eqb res Binary64.zero = true ->
  Binary64.get_random_bounding_box uniform bounds size res st
  = Binary64.Raise Binary64.ZeroDivisionError.
Proof.
  intro Hres.
  unfold Binary64.get_random_bounding_box, Binary64.bind, Binary64.lift,
    Binary64.floordiv.
  now rewrite Hres.
Qed.

Lemma b64_gt_zero_to_Q (k : Binary64.float) :
  Binary64.gt k Binary64.zero = true -> 0 <= Binary64.to_Q k.
Proof.
  destruct k as [s | s | | s m e]; cbn; try discriminate;
    try (intros _; apply Qle_refl).
  destruct s; cbn; try discriminate. intros _.
  apply Qmult_le_0_compat.
  - change 0 with (inject_Z 0). rewrite <- Zle_Qle. lia.
  - apply Qlt_le_weak. apply Qpower_0_lt. reflexivity.
Qed.

(** One axis without rounding: the corners lie within the bounds and are
    one size apart. *)
Lemma b64_exact_axis_within
    (lo hi w res u lo' hi' : Binary64.float) :
  b64_exact_axis lo hi w res u lo' hi' ->
  (Binary64.gt (Binary64.floordiv_value
                  (Binary64.sub (Binary64.sub hi lo) w) res)
               Binary64.zero = false -> lo' = lo) ->
  0 < Binary64.to_Q res ->
  0 <= Binary64.to_Q u -> Binary64.to_Q u < 1 ->
  Binary64.to_Q w <= Binary64.to_Q hi - Binary64.to_Q lo ->
  Binary64.to_Q lo <= Binary64.to_Q lo' /\
  Binary64.to_Q hi' <= Binary64.to_Q hi /\
  Binary64.to_Q hi' - Binary64.to_Q lo' == Binary64.to_Q w.
Proof.
  intros (Eroom & Eoff & Ehi) Hflush Hres Hu0 Hu1 Hfit.
  set (k := Binary64.floordiv_value
              (Binary64.sub (Binary64.sub hi lo) w) res) in *.
  destruct (Binary64.gt k Binary64.zero) eqn:Hk.
  - destruct (Eoff eq_refl) as (Esteps & Eprod & Elo).
    pose proof (b64_gt_zero_to_Q k Hk) as Hk0.
    assert (Hkr : 0 <= Binary64.to_Q k * Binary64.to_Q res)
      by (apply Qmult_le_0_compat; [exact Hk0 | now apply Qlt_le_weak]).
    assert (Ho0 : 0 <= Binary64.to_Q u
                       * (Binary64.to_Q k * Binary64.to_Q res))
      by (apply Qmult_le_0_compat; assumption).
    assert (Ho1 : Binary64.to_Q u * (Binary64.to_Q k * Binary64.to_Q res)
                  <= 1 * (Binary64.to_Q k * Binary64.to_Q res))
      by (apply Qmult_le_compat_r; [now apply Qlt_le_weak | exact Hkr]).
    rewrite Qmult_assoc in Ho0, Ho1. rewrite Qmult_1_l in Ho1.
    repeat split; lra.
  - rewrite (Hflush eq_refl) in *. repeat split; lra.
Qed.


Lemma b64_unit_values_halves : b64_unit_values b64_halves.
Proof.
  intro n. split; vm_compute; [discriminate | reflexivity].
Qed.



(** The room of a size that equals the float extent is a zero, or a NaN
    when the extent is not finite. *)
Lemma b64_sub_self (w : Binary64.float) :
  Binary64.sub w w = Binary64.zero \/ Binary64.sub w w = S754_nan.
Proof.
  destruct w as [s | s | | s m e].
  - left. destruct s; reflexivity.
  - right. destruct s; reflexivity.
  - right. reflexivity.
  - left. unfold Binary64.sub, SFsub. rewrite Z.sub_diag. reflexivity.
Qed.

(** Floor division of a zero or of a NaN gives no positive slack. *)
Lemma b64_floordiv_of_zero (s : bool) (res : Binary64.float) :
  Binary64.eqb res Binary64.zero = false ->
  Binary64.gt (Binary64.floordiv_value (S754_zero s) res) Binary64.zero
  = false.
Proof.
  destruct res as [s' | s' | | s' m e]; intro H.
  - discriminate H.
  - destruct s, s'; reflexivity.
  - reflexivity.
  - destruct s, s'; reflexivity.
Qed.

Lemma b64_floordiv_of_nan (res : Binary64.float) :
  Binary64.gt (Binary64.floordiv_value S754_nan res) Binary64.zero = false.
Proof.
  destruct res as [s' | s' | | s' m e]; try reflexivity;
    destruct s'; reflexivity.
Qed.




(** X2.  The random box sampler takes one value from the random source for
    each axis whose slack, as the code computes it, is positive and none
    for the others, the value of the x axis first: the y offset is scaled
    from the value that follows the ones the x axis took. *)
Theorem b64_random_box_draws
    (uniform : nat -> Binary64.float) (bounds : Binary64.BoundingBox)
    (size : Binary64.size_spec) (res : Binary64.float) (st : rng) :
  Binary64.eqb res Binary64.zero = false ->
  exists (query : Binary64.BoundingBox) (st' : rng),
    Binary64.get_random_bounding_box uniform bounds size res st
    = Binary64.Ok (query, st') /\
    st' = (st + Binary64.draws_on (Binary64.slack_x bounds size res)
              + Binary64.draws_on (Binary64.slack_y bounds size res))%nat /\
    (Binary64.gt (Binary64.slack_y bounds size res) Binary64.zero = true ->
     Binary64.miny query =
     Binary64.add (Binary64.miny bounds)
       (Binary64.mul
          (Binary64.mul
             (uniform (st + Binary64.draws_on
                              (Binary64.slack_x bounds size res))%nat)
             (Binary64.slack_y bounds size res))
          res)).
Proof.
  intro Hres.
  pose proof (b64_get_random_bounding_box_run uniform bounds size res st
                Hres) as Hrun.
  cbv zeta in Hrun.
  eexists. eexists. split; [exact Hrun |].
  cbn [Binary64.miny]. unfold Binary64.draws_on.
  destruct (Binary64.gt (Binary64.slack_x bounds size res) Binary64.zero);
    destruct (Binary64.gt (Binary64.slack_y bounds size res) Binary64.zero);
    rewrite ?Nat.add_0_r, ?Nat.add_1_r;
    (split; [reflexivity |]); intro Hy;
    try reflexivity; discriminate Hy.
Qed.

Lemma b64_random_box_draws_witness :
  Binary64.eqb (Binary64.ratio 21 10) Binary64.zero = false /\
  exists (query : Binary64.BoundingBox) (st' : rng),
    Binary64.get_random_bounding_box b64_halves b64_tile_24
      (Binary64.Scalar (Binary64.ratio 3 10)) (Binary64.ratio 21 10) O
    = Binary64.Ok (query, st') /\
    st' = 2%nat.
Proof.
  assert (H1 : Binary64.eqb (Binary64.ratio 21 10) Binary64.zero = false)
    by (vm_compute; reflexivity).
  split; [exact H1 |].
  destruct (b64_random_box_draws b64_halves b64_tile_24
              (Binary64.Scalar (Binary64.ratio 3 10)) (Binary64.ratio 21 10)
              O H1)
    as (query & st' & Hrun & Hst & _).
  exists query, st'. split; [exact Hrun |].
  rewrite Hst. vm_compute. reflexivity.
Defined.

(** ** The retry loop in binary64 *)

Section Binary64Loop.

Variable uniform : nat -> Binary64.float.
Variable Polygon : Type.
Variable shapely_box :
  Binary64.float -> Binary64.float -> Binary64.float -> Binary64.float ->
  Polygon.
Variable spatial_operator : Polygon -> Polygon -> bool.
Variable bounds : Binary64.BoundingBox.
Variable size : Binary64.size_spec.
Variable res : Binary64.float.
Variable valid_footprint : Polygon.
Variable max_retries : Z.

Hypothesis res_not_zero : Binary64.eqb res Binary64.zero = false.

Let loop (fuel : nat) (retries : Z)
    : Binary64.M (Binary64.BoundingBox * Z) :=
  Binary64.sampling_loop uniform Polygon shapely_box spatial_operator fuel
                         bounds size res valid_footprint max_retries retries.

Let draw : Binary64.M Binary64.BoundingBox :=
  Binary64.get_random_bounding_box uniform bounds size res.

Let holds (b : Binary64.BoundingBox) : bool :=
  spatial_operator
    (shapely_box (Binary64.minx b) (Binary64.miny b)
                 (Binary64.maxx b) (Binary64.maxy b))
    valid_footprint.

Let d : nat := Binary64.draws_per_box bounds size res.

(** One call takes [d] values and returns a box with the time extent of
    [bounds] and the far corner at the near corner plus the size. *)
Lemma b64_draw_returns (st : rng) :
  exists b : Binary64.BoundingBox,
    draw st = Binary64.Ok (b, (st + d)%nat) /\
    Binary64.mint b = Binary64.mint bounds /\
    Binary64.maxt b = Binary64.maxt bounds /\
    Binary64.maxx b
    = Binary64.add (Binary64.minx b) (snd (Binary64._to_tuple size)) /\
    Binary64.maxy b
    = Binary64.add (Binary64.miny b) (fst (Binary64._to_tuple size)).
Proof.
  unfold draw, d.
  pose proof (b64_get_random_bounding_box_run uniform bounds size res st
                res_not_zero) as H.
  cbv zeta in H.
  eexists. split.
  - rewrite H. f_equal. f_equal.
    unfold Binary64.draws_per_box, Binary64.draws_on.
    destruct (Binary64.gt (Binary64.slack_x bounds size res) Binary64.zero);
      destruct (Binary64.gt (Binary64.slack_y bounds size res)
                            Binary64.zero); lia.
  - repeat split.
Qed.

Lemma b64_loop_accepts (fuel : nat) (retries : Z) (st st' : rng)
    (b : Binary64.BoundingBox) :
  draw st = Binary64.Ok (b, st') ->
  holds b || (retries + 1 >=? max_retries)%Z = true ->
  loop (S fuel) retries st = Binary64.Ok ((b, (retries + 1)%Z), st').
Proof.
  intros Hd Hc. unfold loop. simpl. unfold Binary64.bind at 1.
  unfold draw in Hd. rewrite Hd.
  unfold holds in Hc. rewrite Hc. reflexivity.
Qed.

Lemma b64_loop_rejects (fuel : nat) (retries : Z) (st st' : rng)
    (b : Binary64.BoundingBox) :
  draw st = Binary64.Ok (b, st') ->
  holds b || (retries + 1 >=? max_retries)%Z = false ->
  loop (S fuel) retries st = loop fuel (retries + 1)%Z st'.
Proof.
  intros Hd Hc. unfold loop. simpl. unfold Binary64.bind at 1.
  unfold draw in Hd. rewrite Hd.
  unfold holds in Hc. rewrite Hc. reflexivity.
Qed.

(** What the loop computes in binary64: the candidate of the iteration it
    returns in, drawn after [k] rejected ones, each having taken [d]
    values. *)
Lemma b64_loop_returns (fuel : nat) :
  forall (retries : Z) (st : rng),
    (Z.to_nat (Z.max 1 (max_retries - retries)) <= fuel)%nat ->
    exists (k : nat) (b : Binary64.BoundingBox),
      loop fuel retries st
      = Binary64.Ok ((b, (retries + 1 + Z.of_nat k)%Z),
                     (st + S k * d)%nat) /\
      draw (st + k * d)%nat = Binary64.Ok (b, (st + S k * d)%nat) /\
      (retries + 1 + Z.of_nat k <= Z.max (retries + 1) max_retries)%Z.
Proof.
  induction fuel as [| fuel IH]; intros retries st Hfuel.
  - exfalso. lia.
  - destruct (b64_draw_returns st) as (b0 & Hd & _).
    destruct (holds b0 || (retries + 1 >=? max_retries)%Z) eqn:Hc.
    + exists O, b0.
      rewrite (b64_loop_accepts fuel retries st _ b0 Hd Hc).
      simpl Z.of_nat. rewrite Z.add_0_r.
      replace (st + 1 * d)%nat with (st + d)%nat by lia.
      replace (st + 0 * d)%nat with st by lia.
      split; [reflexivity |]. split; [exact Hd | lia].
    + pose proof Hc as Hc'.
      apply orb_false_iff in Hc'. destruct Hc' as [_ Hlt].
      rewrite Z.geb_leb in Hlt. apply Z.leb_gt in Hlt.
      destruct (IH (retries + 1)%Z (st + d)%nat) as (k & b & Hl & Hk & Hb).
      { lia. }
      exists (S k), b.
      rewrite (b64_loop_rejects fuel retries st _ b0 Hd Hc).
      replace (retries + 1 + Z.of_nat (S k))%Z
        with (retries + 1 + 1 + Z.of_nat k)%Z by lia.
      replace (st + S (S k) * d)%nat with (st + d + S k * d)%nat by lia.
      replace (st + S k * d)%nat with (st + d + k * d)%nat by lia.
      split; [exact Hl |]. split; [exact Hk | lia].
Qed.

End Binary64Loop.

Lemma b64_wrapper_of_loop
    (uniform : nat -> Binary64.float) (Polygon : Type)
    (shapely_box :
       Binary64.float -> Binary64.float -> Binary64.float ->
       Binary64.float -> Polygon)
    (spatial_operator : Polygon -> Polygon -> bool)
    (fuel : nat) (bounds : Binary64.BoundingBox) (size : Binary64.size_spec)
    (res : Binary64.float) (valid_footprint : Polygon) (max_retries : Z)
    (st st' : rng) (b : Binary64.BoundingBox) (n : Z) :
  Binary64.sampling_loop uniform Polygon shapely_box spatial_operator fuel
                         bounds size res valid_footprint max_retries 0%Z st
  = Binary64.Ok ((b, n), st') ->
  Binary64.get_random_bounding_box_check_valid_overlap
    uniform Polygon shapely_box spatial_operator fuel
    bounds size res valid_footprint max_retries st = Binary64.Ok (b, st').
Proof.
  intro H.
  unfold Binary64.get_random_bounding_box_check_valid_overlap, Binary64.bind.
  now rewrite H.
Qed.

(** X5.  The box the constrained sampler returns is a box of the random
    box sampler whatever the relation and the retry budget: it has the
    time extent of [bounds] and its far corner is the binary64 sum of its
    near corner and the size, also when it is returned on exhaustion. *)
Theorem b64_constrained_box_shape
    (uniform : nat -> Binary64.float) (Polygon : Type)
    (shapely_box :
       Binary64.float -> Binary64.float -> Binary64.float ->
       Binary64.float -> Polygon)
    (spatial_operator : Polygon -> Polygon -> bool)
    (bounds : Binary64.BoundingBox) (size : Binary64.size_spec)
    (res : Binary64.float) (valid_footprint : Polygon) (max_retries : Z)
    (fuel : nat) (st : rng) :
  Binary64.eqb res Binary64.zero = false ->
  (Z.to_nat (budget max_retries) <= fuel)%nat ->
  exists (b : Binary64.BoundingBox) (st' : rng),
    Binary64.get_random_bounding_box_check_valid_overlap
      uniform Polygon shapely_box spatial_operator fuel
      bounds size res valid_footprint max_retries st
    = Binary64.Ok (b, st') /\
    Binary64.mint b = Binary64.mint bounds /\
    Binary64.maxt b = Binary64.maxt bounds /\
    Binary64.maxx b
    = Binary64.add (Binary64.minx b) (snd (Binary64._to_tuple size)) /\
    Binary64.maxy b
    = Binary64.add (Binary64.miny b) (fst (Binary64._to_tuple size)).
Proof.
  intros Hres Hfuel. unfold budget in Hfuel.
  destruct (b64_loop_returns uniform Polygon shapely_box spatial_operator
              bounds size res valid_footprint max_retries Hres fuel 0%Z st)
    as (k & b & Hl & Hd & _).
  { rewrite Z.sub_0_r. exact Hfuel. }
  destruct (b64_draw_returns uniform bounds size res Hres
              (st + k * Binary64.draws_per_box bounds size res)%nat)
    as (b' & Hd' & Hshape).
  rewrite Hd in Hd'. injection Hd' as <-.
  eexists. eexists. split; [| exact Hshape].
  exact (b64_wrapper_of_loop _ _ _ _ _ _ _ _ _ _ _ _ _ _ Hl).
Qed.

Lemma b64_constrained_box_shape_witness :
  Binary64.eqb (Binary64.of_Z 1) Binary64.zero = false /\
  (Z.to_nat (budget 5) <= 5)%nat /\
  exists (b : Binary64.BoundingBox) (st' : rng),
    Binary64.get_random_bounding_box_check_valid_overlap
      b64_halves unit (fun _ _ _ _ => tt) (fun _ _ => false) 5
      b64_tile_10_10 (Binary64.Scalar (Binary64.of_Z 5)) (Binary64.of_Z 1)
      tt 5%Z O = Binary64.Ok (b, st') /\
    Binary64.maxx b = Binary64.add (Binary64.minx b) (Binary64.of_Z 5).
Proof.
  assert (H1 : Binary64.eqb (Binary64.of_Z 1) Binary64.zero = false)
    by (vm_compute; reflexivity).
  assert (H2 : (Z.to_nat (budget 5) <= 5)%nat) by (vm_compute; lia).
  split; [exact H1 |]. split; [exact H2 |].
  destruct (b64_constrained_box_shape
              b64_halves unit (fun _ _ _ _ => tt) (fun _ _ => false)
              b64_tile_10_10 (Binary64.Scalar (Binary64.of_Z 5))
              (Binary64.of_Z 1) tt 5%Z 5%nat O H1 H2)
    as (b & st' & Hrun & _ & _ & Hx & _).
  exists b, st'. split; [exact Hrun | exact Hx].
Defined.

(** X18.  Every iteration of the constrained sampler draws afresh and
    takes the same number [d] of random values, one for each axis whose
    slack as the code computes it is positive.  The box returned by
    iteration [n] is the box one call of [get_random_bounding_box] returns
    once [(n - 1) * d] values have been taken, and the sampler leaves the
    random source [n * d] values further. *)
Theorem b64_constrained_sampler_consumes
    (uniform : nat -> Binary64.float) (Polygon : Type)
    (shapely_box :
       Binary64.float -> Binary64.float -> Binary64.float ->
       Binary64.float -> Polygon)
    (spatial_operator : Polygon -> Polygon -> bool)
    (bounds : Binary64.BoundingBox) (size : Binary64.size_spec)
    (res : Binary64.float) (valid_footprint : Polygon) (max_retries : Z)
    (fuel : nat) (st : rng) :
  Binary64.eqb res Binary64.zero = false ->
  (Z.to_nat (budget max_retries) <= fuel)%nat ->
  exists (k : nat) (b : Binary64.BoundingBox),
    Binary64.sampling_loop uniform Polygon shapely_box spatial_operator fuel
                           bounds size res valid_footprint max_retries 0%Z st
    = Binary64.Ok ((b, Z.of_nat (S k)),
                   (st + S k * Binary64.draws_per_box bounds size res)%nat) /\
    Binary64.get_random_bounding_box uniform bounds size res
      (st + k * Binary64.draws_per_box bounds size res)%nat
    = Binary64.Ok
        (b, (st + S k * Binary64.draws_per_box bounds size res)%nat) /\
    (Z.of_nat (S k) <= budget max_retries)%Z.
Proof.
  intros Hres Hfuel. unfold budget in *.
  destruct (b64_loop_returns uniform Polygon shapely_box spatial_operator
              bounds size res valid_footprint max_retries Hres fuel 0%Z st)
    as (k & b & Hl & Hd & Hb).
  { rewrite Z.sub_0_r. exact Hfuel. }
  exists k, b.
  replace (Z.of_nat (S k)) with (0 + 1 + Z.of_nat k)%Z by lia.
  split; [exact Hl |]. split; [exact Hd | exact Hb].
Qed.

Lemma b64_constrained_sampler_consumes_witness :
  Binary64.eqb (Binary64.ratio 21 10) Binary64.zero = false /\
  (Z.to_nat (budget 3) <= 3)%nat /\
  Binary64.draws_per_box b64_tile_24 (Binary64.Scalar (Binary64.ratio 3 10))
                         (Binary64.ratio 21 10) = 2%nat /\
  exists (k : nat) (b : Binary64.BoundingBox),
    Binary64.sampling_loop b64_halves unit (fun _ _ _ _ => tt)
      (fun _ _ => false) 3 b64_tile_24
      (Binary64.Scalar (Binary64.ratio 3 10)) (Binary64.ratio 21 10)
      tt 3%Z 0%Z O
    = Binary64.Ok ((b, Z.of_nat (S k)), (0 + S k * 2)%nat).
Proof.
  assert (H1 : Binary64.eqb (Binary64.ratio 21 10) Binary64.zero = false)
    by (vm_compute; reflexivity).
  assert (H2 : (Z.to_nat (budget 3) <= 3)%nat) by (vm_compute; lia).
  assert (H3 : Binary64.draws_per_box b64_tile_24
                 (Binary64.Scalar (Binary64.ratio 3 10))
                 (Binary64.ratio 21 10) = 2%nat)
    by (vm_compute; reflexivity).
  split; [exact H1 |]. split; [exact H2 |]. split; [exact H3 |].
  destruct (b64_constrained_sampler_consumes
              b64_halves unit (fun _ _ _ _ => tt) (fun _ _ => false)
              b64_tile_24 (Binary64.Scalar (Binary64.ratio 3 10))
              (Binary64.ratio 21 10) tt 3%Z 3%nat O H1 H2)
    as (k & b & Hl & _).
  exists k, b. rewrite H3 in Hl. exact Hl.
Defined.
